(** * Reminder schedule of the relationship manager

    A shallow embedding of the event-scheduling loop of [server.py]
    (handler [method_specification_success]) and of the category mapping of
    [contact_added], together with the calendar arithmetic the loop relies
    on: Python's [datetime] and [calendar.monthrange], dateutil's
    [relativedelta] and arrow's [replace] with plural keys. *)

From Stdlib Require Import ZArith String List Bool Lia Sorted.
Import ListNotations.

Local Open Scope string_scope.
Local Open Scope Z_scope.
Local Open Scope list_scope.

(** ** Calendar arithmetic *)

Module Calendar.

(** A timestamp as Python's [datetime] holds it.  The handler never looks
    inside the time of day, so hour, minute, second and microsecond are
    kept as one number, the microseconds since midnight. *)
Record datetime : Type := mkDatetime {
  year : Z;
  month : Z;
  day : Z;
  time_of_day : Z
}.

Definition MINYEAR : Z := 1.
Definition MAXYEAR : Z := 9999.

(** [calendar.isleap] *)
Definition isleap (y : Z) : bool :=
  (y mod 4 =? 0) && (negb (y mod 100 =? 0) || (y mod 400 =? 0)).

(** [calendar.mdays] *)
Definition mdays (m : Z) : Z :=
  match m with
  | 1 => 31 | 2 => 28 | 3 => 31 | 4 => 30 | 5 => 31 | 6 => 30
  | 7 => 31 | 8 => 31 | 9 => 30 | 10 => 31 | 11 => 30 | 12 => 31
  | _ => 0
  end.

(** Second component of [calendar.monthrange year month]: the number of
    days of the month. *)
Definition monthrange (y m : Z) : Z :=
  mdays m + (if (m =? 2) && isleap y then 1 else 0).

(** The values a [datetime] object can hold. *)
Definition valid_datetimeb (dt : datetime) : bool :=
  (MINYEAR <=? year dt) && (year dt <=? MAXYEAR)
  && (1 <=? month dt) && (month dt <=? 12)
  && (1 <=? day dt) && (day dt <=? monthrange (year dt) (month dt))
  && (0 <=? time_of_day dt) && (time_of_day dt <? 86400000000).

Definition valid_datetime (dt : datetime) : Prop :=
  valid_datetimeb dt = true.

(** Comparison of two timestamps of the same time zone: lexicographic on
    the fields. *)
Definition dt_ltb (a b : datetime) : bool :=
  (year a <? year b)
  || ((year a =? year b)
      && ((month a <? month b)
          || ((month a =? month b)
              && ((day a <? day b)
                  || ((day a =? day b)
                      && (time_of_day a <? time_of_day b)))))).

Definition dt_lt (a b : datetime) : Prop := dt_ltb a b = true.

(** [dt + relativedelta(years=years, months=months)] as dateutil computes
    it: the month is moved and wrapped once around the year, the day is cut
    down to the length of the month reached, the time of day is kept.
    dateutil keeps [months] between -11 and 11 by carrying whole years into
    [years], so that thirteen months are [years = 1] and [months = 1].
    Building the new [datetime] raises [ValueError] when the year leaves
    [MINYEAR .. MAXYEAR]: that is [None] here. *)
Definition relativedelta_add (years months : Z) (dt : datetime)
  : option datetime :=
  let y0 := year dt + years in
  let m0 := month dt + months in
  let '(y, m) :=
    if 12 <? m0 then (y0 + 1, m0 - 12)
    else if m0 <? 1 then (y0 - 1, m0 + 12)
    else (y0, m0) in
  let d := Z.min (monthrange y m) (day dt) in
  if (MINYEAR <=? y) && (y <=? MAXYEAR)
  then Some (mkDatetime y m d (time_of_day dt))
  else None.

(** arrow's [replace(months=+k)] and [replace(years=+k)]: plural keys are
    relative and go through [relativedelta]. *)
Definition replace_months (k : Z) (dt : datetime) : option datetime :=
  relativedelta_add 0 k dt.

Definition replace_years (k : Z) (dt : datetime) : option datetime :=
  relativedelta_add k 0 dt.

(** Months since year 0, the scale on which a shift by [k] months is
    an addition. *)
Definition month_index (dt : datetime) : Z := 12 * year dt + month dt.

End Calendar.

Import Calendar.

(** ** The rows of the store *)

Record Relationship : Type := mkRelationship {
  rel_id : Z;
  rel_user_id : Z;
  relatp_type : string;
  created_date : datetime
}.

Record Event : Type := mkEvent {
  user_id : Z;
  relatp_id : Z;
  rcmdn : string;
  scheduled_at : datetime
}.

(** ** [contact_added]: the stored code of a relationship kind

    [request.form.get('relatp')] is [None] when the field is absent. *)
Definition contact_added_relatp_type (relatp : option string) : string :=
  match relatp with
  | Some r =>
      if (r =? "friend")%string then "fr"
      else if (r =? "family")%string then "fam"
      else "prf"
  | None => "prf"
  end.

(** ** [method_specification_success]: the scheduling loop *)

(** How a run of the handler ends: the session is committed with the events
    added to it, or a date shift raised [ValueError] before the commit, or
    the model ran out of fuel before the [while] loop was left. *)
Inductive outcome : Type :=
| Done (events : list Event)
| Raised
| OutOfFuel.

(** Error-passing for the date shifts inside the loops. *)
Definition bind {A B : Type} (x : option A) (f : A -> option B) : option B :=
  match x with
  | Some a => f a
  | None => None
  end.

Notation "x <- e ;; k" := (bind e (fun x => k))
  (at level 61, e at next level, right associativity).

Section Handler.

Variables (uid rid : Z).
Variable update_relatp : Relationship.

(** The [for desired_item in desired_list] loop.  The state is the
    session (the events added so far) and [start_date]; each item adds one
    event at [start_date] and then moves [start_date]. *)
Fixpoint for_desired_list (desired_list : list string)
    (session : list Event) (start_date : datetime)
  : option (list Event * datetime) :=
  match desired_list with
  | [] => Some (session, start_date)
  | desired_item :: rest =>
      if (relatp_type update_relatp =? "fr")%string
         || (relatp_type update_relatp =? "fam")%string
      then
        let new_event := mkEvent uid rid desired_item start_date in
        let session := session ++ [new_event] in
        start_date <- replace_months 1 start_date ;;
        for_desired_list rest session start_date
      else
        let new_event := mkEvent uid rid desired_item start_date in
        let session := session ++ [new_event] in
        start_date <- replace_months 4 start_date ;;
        for_desired_list rest session start_date
  end.

(** The [while start_date < yr_from_now] loop; [fuel] bounds the number
    of times the condition is tested. *)
Fixpoint while_loop (fuel : nat) (desired_list : list string)
    (yr_from_now : datetime) (session : list Event) (start_date : datetime)
  : outcome :=
  match fuel with
  | O => OutOfFuel
  | S fuel' =>
      if dt_ltb start_date yr_from_now then
        match for_desired_list desired_list session start_date with
        | Some (session, start_date) =>
            while_loop fuel' desired_list yr_from_now session start_date
        | None => Raised
        end
      else Done session
  end.

(** The handler, from the row read from the store to the commit.  The
    assignment of [desired_list] to the row and the rendering of the page
    are left out: neither bears on the events. *)
Definition method_specification_success (fuel : nat)
    (desired_list : list string) : outcome :=
  let arrow_created_at := created_date update_relatp in
  match replace_months 1 arrow_created_at with
  | None => Raised
  | Some start_date =>
      match replace_years 1 start_date with
      | None => Raised
      | Some yr_from_now =>
          while_loop fuel desired_list yr_from_now [] start_date
      end
  end.

End Handler.

(** The step of a category, in months. *)
Definition step_of (relatp_type : string) : Z :=
  if (relatp_type =? "fr")%string || (relatp_type =? "fam")%string
  then 1 else 4.

(** ** Sample contacts and events *)

Definition date (y m d : Z) : datetime := mkDatetime y m d 0.

Definition contact (code : string) (created : datetime) : Relationship :=
  mkRelationship 7 1 code created.

Definition ev (method : string) (d : datetime) : Event := mkEvent 1 7 method d.

Definition generate (fuel : nat) (code : string) (created : datetime)
    (methods : list string) : outcome :=
  method_specification_success 1 7 (contact code created) fuel methods.

(** The first example of the specification, as the specification words it:
    twelve monthly groups from 2024-02-15 to 2025-01-15, each of a call and
    an email at the date of the group. *)
Definition spec_example_dates : list datetime :=
  [date 2024 2 15; date 2024 3 15; date 2024 4 15; date 2024 5 15;
   date 2024 6 15; date 2024 7 15; date 2024 8 15; date 2024 9 15;
   date 2024 10 15; date 2024 11 15; date 2024 12 15; date 2025 1 15].

Definition spec_example_friend : list Event :=
  flat_map (fun d => [ev "call" d; ev "email" d]) spec_example_dates.

(** The run of a friend created on 2023-01-31, with the one method call:
    the day falls to 28 in February and stays there. *)
Definition jan31_events : list Event :=
  map (ev "call")
    [date 2023 2 28; date 2023 3 28; date 2023 4 28; date 2023 5 28;
     date 2023 6 28; date 2023 7 28; date 2023 8 28; date 2023 9 28;
     date 2023 10 28; date 2023 11 28; date 2023 12 28; date 2024 1 28].

(** The run of a friend created on 2024-01-15 with the methods call and
    email, and the run of a professional contact with the same date and
    methods. *)
Definition friend_call_email_events : list Event :=
  [ev "call" (date 2024 2 15); ev "email" (date 2024 3 15);
   ev "call" (date 2024 4 15); ev "email" (date 2024 5 15);
   ev "call" (date 2024 6 15); ev "email" (date 2024 7 15);
   ev "call" (date 2024 8 15); ev "email" (date 2024 9 15);
   ev "call" (date 2024 10 15); ev "email" (date 2024 11 15);
   ev "call" (date 2024 12 15); ev "email" (date 2025 1 15)].

Definition professional_call_email_events : list Event :=
  [ev "call" (date 2024 2 15); ev "email" (date 2024 6 15);
   ev "call" (date 2024 10 15); ev "email" (date 2025 2 15)].

(** Events emitted one after the other from date [d] on, each [step] months
    after the one before it, [d'] being the date the loop is left with. *)
Inductive schedule (step : Z) : datetime -> list Event -> datetime -> Prop :=
| schedule_nil : forall d, schedule step d [] d
| schedule_cons : forall d d' d'' e evs,
    scheduled_at e = d ->
    replace_months step d = Some d' ->
    schedule step d' evs d'' ->
    schedule step d (e :: evs) d''.

(** The committed events of an outcome: none unless the run reached the
    commit. *)
Definition committed (r : outcome) : list Event :=
  match r with
  | Done events => events
  | _ => []
  end.

(** Room left in the calendar: the month [13 + 4 * n] months after [created]
    is not past December of [MAXYEAR], so that no shift of a run over [n]
    methods raises. *)
Definition within_calendar (created : datetime) (n : nat) : Prop :=
  month_index created + 13 + 4 * Z.of_nat n <= 12 * MAXYEAR + 12.

(** The same row with the professional code. *)
Definition as_professional (r : Relationship) : Relationship :=
  mkRelationship (rel_id r) (rel_user_id r) "prf" (created_date r).

(** The end-of-month rule of one advance by [k] months: the month reached
    is [k] months on, the day is kept unless the month reached is shorter,
    in which case it is the last day of that month, and the time of day is
    kept. *)
Definition end_of_month_policy (k : Z) (d d' : datetime) : Prop :=
  month_index d' = month_index d + k /\
  1 <= month d' <= 12 /\
  day d' = (if monthrange (year d') (month d') <? day d
            then monthrange (year d') (month d') else day d) /\
  time_of_day d' = time_of_day d.

(** The window the specification gives for the dates of the events:
    from one month after the creation to thirteen months after it, the
    latter excluded. *)
Definition in_window (created d : datetime) : bool :=
  match replace_months 1 created, relativedelta_add 1 1 created with
  | Some lo, Some hi => negb (dt_ltb d lo) && dt_ltb d hi
  | _, _ => false
  end.

(** The events of one pass share one date: events [i] and [j] of the output
    lie in the same group of [k] when [i / k = j / k]. *)
Definition groups_share_date (k : nat) (evs : list Event) : Prop :=
  forall i j ei ej,
    nth_error evs i = Some ei -> nth_error evs j = Some ej ->
    (i / k = j / k)%nat -> scheduled_at ei = scheduled_at ej.

(** ** Facts of the calendar *)

Module CalendarFacts.

Lemma dt_ltb_spec (a b : datetime) :
  dt_ltb a b = true <->
  year a < year b \/
  (year a = year b /\
   (month a < month b \/
    (month a = month b /\
     (day a < day b \/
      (day a = day b /\ time_of_day a < time_of_day b))))).
Proof.
  unfold dt_ltb.
  destruct (Z.ltb_spec (year a) (year b)), (Z.eqb_spec (year a) (year b)),
    (Z.ltb_spec (month a) (month b)), (Z.eqb_spec (month a) (month b)),
    (Z.ltb_spec (day a) (day b)), (Z.eqb_spec (day a) (day b)),
    (Z.ltb_spec (time_of_day a) (time_of_day b));
    simpl; split; intros Hab; solve [ reflexivity | discriminate | lia ].
Qed.

Lemma dt_lt_irrefl (a : datetime) : ~ dt_lt a a.
Proof. unfold dt_lt. rewrite dt_ltb_spec. lia. Qed.

Lemma dt_lt_trans (a b c : datetime) : dt_lt a b -> dt_lt b c -> dt_lt a c.
Proof. unfold dt_lt. rewrite !dt_ltb_spec. lia. Qed.

Lemma valid_datetime_spec (dt : datetime) :
  valid_datetime dt <->
  (MINYEAR <= year dt <= MAXYEAR) /\ (1 <= month dt <= 12) /\
  (1 <= day dt <= monthrange (year dt) (month dt)) /\
  (0 <= time_of_day dt < 86400000000).
Proof.
  unfold valid_datetime, valid_datetimeb.
  rewrite !andb_true_iff, !Z.leb_le, Z.ltb_lt. tauto.
Qed.

Lemma monthrange_bounds (y m : Z) :
  1 <= m <= 12 -> 28 <= monthrange y m <= 31.
Proof.
  intros Hm. unfold monthrange.
  assert (Hc : m = 1 \/ m = 2 \/ m = 3 \/ m = 4 \/ m = 5 \/ m = 6 \/
               m = 7 \/ m = 8 \/ m = 9 \/ m = 10 \/ m = 11 \/ m = 12) by lia.
  repeat (destruct Hc as [-> | Hc]); try subst m; simpl;
    try lia; destruct (isleap y); lia.
Qed.

(** Months compare like the dates they belong to. *)
Lemma month_index_lt (a b : datetime) :
  1 <= month a <= 12 -> 1 <= month b <= 12 ->
  month_index a < month_index b -> dt_lt a b.
Proof.
  unfold dt_lt, month_index. rewrite dt_ltb_spec. lia.
Qed.

Lemma dt_lt_month_index (a b : datetime) :
  1 <= month a <= 12 -> 1 <= month b <= 12 ->
  dt_lt a b -> month_index a <= month_index b.
Proof.
  unfold dt_lt, month_index. rewrite dt_ltb_spec. lia.
Qed.

(** What a shift by years and months does, when it does not raise. *)
Lemma relativedelta_add_spec (years months : Z) (dt dt' : datetime) :
  1 <= month dt <= 12 -> -11 <= months <= 12 ->
  relativedelta_add years months dt = Some dt' ->
  month_index dt' = month_index dt + 12 * years + months /\
  1 <= month dt' <= 12 /\
  MINYEAR <= year dt' <= MAXYEAR /\
  day dt' = Z.min (monthrange (year dt') (month dt')) (day dt) /\
  time_of_day dt' = time_of_day dt.
Proof.
  intros Hm Hk. unfold relativedelta_add, month_index.
  destruct (12 <? month dt + months) eqn:E1;
    [ | destruct (month dt + months <? 1) eqn:E2 ];
    match goal with
    | |- context [ (MINYEAR <=? ?y) && (?y <=? MAXYEAR) ] =>
        destruct ((MINYEAR <=? y) && (y <=? MAXYEAR)) eqn:E3
    end; try discriminate;
    intros H; injection H as <-; cbn [year month day time_of_day];
    apply andb_true_iff in E3; destruct E3 as [E3 E4];
    apply Z.leb_le in E3; apply Z.leb_le in E4;
    rewrite ?Z.ltb_lt, ?Z.ltb_ge in *; repeat split; lia.
Qed.

(** When a shift does not raise. *)
Lemma relativedelta_add_defined (years months : Z) (dt : datetime) :
  1 <= month dt <= 12 -> -11 <= months <= 12 ->
  12 * MINYEAR + 1 <= month_index dt + 12 * years + months
    <= 12 * MAXYEAR + 12 ->
  exists dt', relativedelta_add years months dt = Some dt'.
Proof.
  intros Hm Hk. unfold relativedelta_add, month_index, MINYEAR, MAXYEAR.
  intros Hr.
  destruct (12 <? month dt + months) eqn:E1;
    [ | destruct (month dt + months <? 1) eqn:E2 ];
    rewrite ?Z.ltb_lt, ?Z.ltb_ge in *;
    match goal with
    | |- context [ (1 <=? ?y) && (?y <=? 9999) ] =>
        replace ((1 <=? y) && (y <=? 9999)) with true;
        [ eexists; reflexivity
        | symmetry; apply andb_true_iff; split; apply Z.leb_le; lia ]
    end.
Qed.

Lemma relativedelta_add_valid (years months : Z) (dt dt' : datetime) :
  valid_datetime dt -> -11 <= months <= 12 ->
  relativedelta_add years months dt = Some dt' ->
  valid_datetime dt'.
Proof.
  rewrite !valid_datetime_spec. intros (Hy & Hm & Hd & Ht) Hk H.
  destruct (relativedelta_add_spec _ _ _ _ Hm Hk H)
    as (_ & Hm' & Hy' & Hd' & Ht').
  pose proof (monthrange_bounds (year dt') (month dt') Hm').
  repeat split; lia.
Qed.

(** A shift forward by months lands strictly later. *)
Lemma replace_months_later (k : Z) (dt dt' : datetime) :
  1 <= month dt <= 12 -> 1 <= k <= 12 ->
  replace_months k dt = Some dt' -> dt_lt dt dt'.
Proof.
  intros Hm Hk H.
  destruct (relativedelta_add_spec 0 k dt dt' Hm ltac:(lia) H)
    as (Hi & Hm' & _).
  apply month_index_lt; lia.
Qed.

End CalendarFacts.

Import CalendarFacts.

(** ** Facts of the loops *)

Section HandlerFacts.

Variables (uid rid : Z).
Variable update_relatp : Relationship.

Let step : Z := step_of (relatp_type update_relatp).

Lemma step_of_cases (code : string) : step_of code = 1 \/ step_of code = 4.
Proof.
  unfold step_of.
  destruct ((code =? "fr")%string || (code =? "fam")%string); auto.
Qed.

Lemma step_range : 1 <= step <= 4.
Proof.
  subst step. destruct (step_of_cases (relatp_type update_relatp)); lia.
Qed.

(** Both branches of the loop body do the same but for the step. *)
Lemma for_desired_list_cons (desired_item : string) (rest : list string)
    (session : list Event) (start_date : datetime) :
  for_desired_list uid rid update_relatp (desired_item :: rest)
    session start_date =
  (next <- replace_months step start_date ;;
   for_desired_list uid rid update_relatp rest
     (session ++ [mkEvent uid rid desired_item start_date]) next).
Proof.
  subst step. unfold step_of. simpl.
  destruct ((relatp_type update_relatp =? "fr")%string
            || (relatp_type update_relatp =? "fam")%string); reflexivity.
Qed.

Lemma schedule_app (d d' d'' : datetime) (evs1 evs2 : list Event) :
  schedule step d evs1 d' -> schedule step d' evs2 d'' ->
  schedule step d (evs1 ++ evs2) d''.
Proof.
  induction 1 as [ | d0 d1 d2 e evs He Hr Hs IH ]; intros H2; simpl.
  - exact H2.
  - econstructor; eauto.
Qed.

(** One pass over the list: one event per item, in the order of the list,
    each dated one step after the one before. *)
Lemma for_desired_list_spec (desired_list : list string) :
  forall session start_date session' start_date',
    for_desired_list uid rid update_relatp desired_list session start_date
      = Some (session', start_date') ->
    exists evs,
      session' = session ++ evs /\
      schedule step start_date evs start_date' /\
      map rcmdn evs = desired_list /\
      Forall (fun e => user_id e = uid /\ relatp_id e = rid) evs.
Proof.
  induction desired_list as [ | item rest IH ];
    intros session start_date session' start_date' H.
  - injection H as <- <-. exists []. rewrite app_nil_r.
    repeat split; constructor.
  - rewrite for_desired_list_cons in H. unfold bind in H.
    destruct (replace_months step start_date) as [ next | ] eqn:Hn;
      [ | discriminate ].
    destruct (IH _ _ _ _ H) as (evs & -> & Hs & Hm & Hf).
    exists (mkEvent uid rid item start_date :: evs).
    rewrite <- app_assoc. simpl. repeat split.
    + econstructor; eauto.
    + now rewrite Hm.
    + constructor; auto.
Qed.

(** Along a schedule the month index grows by the step at every event. *)
Lemma schedule_month_index (d d' : datetime) (evs : list Event) :
  schedule step d evs d' -> 1 <= month d <= 12 ->
  month_index d' = month_index d + step * Z.of_nat (length evs) /\
  1 <= month d' <= 12.
Proof.
  pose proof step_range as Hstep.
  induction 1 as [ | d0 d1 d2 e evs He Hr Hs IH ]; intros Hm.
  - simpl. lia.
  - destruct (relativedelta_add_spec 0 step d0 d1 Hm ltac:(lia) Hr)
      as (Hi & Hm1 & _).
    destruct (IH Hm1) as [IHi IHm]. split; [ | exact IHm ].
    simpl length. lia.
Qed.

Lemma schedule_valid (d d' : datetime) (evs : list Event) :
  schedule step d evs d' -> valid_datetime d ->
  valid_datetime d' /\ Forall (fun e => valid_datetime (scheduled_at e)) evs.
Proof.
  pose proof step_range as Hstep.
  induction 1 as [ | d0 d1 d2 e evs He Hr Hs IH ]; intros Hv.
  - split; [ exact Hv | constructor ].
  - assert (Hv1 : valid_datetime d1)
      by (eapply relativedelta_add_valid; [ exact Hv | | exact Hr ]; lia).
    destruct (IH Hv1) as [Hv2 Hf]. split; [ exact Hv2 | ].
    constructor; [ now rewrite He | exact Hf ].
Qed.

(** The pass raises only when a date leaves the calendar. *)
Lemma for_desired_list_defined (desired_list : list string) :
  forall session start_date,
    1 <= month start_date <= 12 -> MINYEAR <= year start_date ->
    month_index start_date + step * Z.of_nat (length desired_list)
      <= 12 * MAXYEAR + 12 ->
    exists r,
      for_desired_list uid rid update_relatp desired_list session start_date
        = Some r.
Proof.
  pose proof step_range as Hstep.
  induction desired_list as [ | item rest IH ];
    intros session start_date Hm Hy Hr.
  - eexists; reflexivity.
  - rewrite for_desired_list_cons. simpl length in Hr.
    destruct (relativedelta_add_defined 0 step start_date Hm ltac:(lia))
      as [next Hn].
    { unfold month_index, MINYEAR, MAXYEAR in *. lia. }
    fold (replace_months step start_date) in Hn. rewrite Hn. simpl.
    destruct (relativedelta_add_spec 0 step _ _ Hm ltac:(lia) Hn)
      as (Hi & Hm' & Hy' & _).
    apply IH; try lia.
Qed.

(** The loop, when it reaches the commit: whole passes over the list, one
    schedule from the first date on, left at a date that is not before the
    bound. *)
Lemma while_loop_spec (desired_list : list string) (yr_from_now : datetime) :
  forall fuel session start_date out,
    while_loop uid rid update_relatp fuel desired_list yr_from_now
      session start_date = Done out ->
    exists evs last passes,
      out = session ++ evs /\
      schedule step start_date evs last /\
      dt_ltb last yr_from_now = false /\
      map rcmdn evs = concat (repeat desired_list passes) /\
      Forall (fun e => user_id e = uid /\ relatp_id e = rid) evs.
Proof.
  induction fuel as [ | fuel IH ]; intros session start_date out H;
    simpl in H; [ discriminate | ].
  destruct (dt_ltb start_date yr_from_now) eqn:Hg.
  - destruct (for_desired_list uid rid update_relatp desired_list
                session start_date) as [ [session1 start1] | ] eqn:Hf;
      [ | discriminate ].
    destruct (for_desired_list_spec _ _ _ _ _ Hf)
      as (evs1 & -> & Hs1 & Hm1 & Hi1).
    destruct (IH _ _ _ H) as (evs2 & last & passes & -> & Hs2 & Hl & Hm2 & Hi2).
    exists (evs1 ++ evs2), last, (S passes).
    rewrite app_assoc. repeat split; auto.
    + eapply schedule_app; eauto.
    + rewrite map_app, Hm1, Hm2. reflexivity.
    + apply Forall_app; auto.
  - injection H as <-. exists [], start_date, O.
    rewrite app_nil_r. repeat split; auto; constructor.
Qed.

(** The events added by the loop: while the condition holds the months
    used so far fit below the bound, and the last pass adds one list more. *)
Lemma while_loop_bound (desired_list : list string) (yr_from_now : datetime) :
  1 <= month yr_from_now <= 12 ->
  forall fuel session start_date out,
    1 <= month start_date <= 12 ->
    while_loop uid rid update_relatp fuel desired_list yr_from_now
      session start_date = Done out ->
    step * (Z.of_nat (length out) - Z.of_nat (length session)) <=
    if dt_ltb start_date yr_from_now
    then step * Z.of_nat (length desired_list)
         + (month_index yr_from_now - month_index start_date)
    else 0.
Proof.
  intros Hyr. pose proof step_range as Hstep.
  induction fuel as [ | fuel IH ]; intros session start_date out Hm H;
    simpl in H; [ discriminate | ].
  destruct (dt_ltb start_date yr_from_now) eqn:Hg.
  - destruct (for_desired_list uid rid update_relatp desired_list
                session start_date) as [ [session1 start1] | ] eqn:Hf;
      [ | discriminate ].
    destruct (for_desired_list_spec _ _ _ _ _ Hf)
      as (evs1 & -> & Hs1 & Hm1 & _).
    destruct (schedule_month_index _ _ _ Hs1 Hm) as [Hi1 Hmo1].
    specialize (IH _ _ _ Hmo1 H).
    pose proof (dt_lt_month_index _ _ Hm Hyr Hg) as Hle.
    assert (Hlen : length evs1 = length desired_list)
      by (rewrite <- Hm1; now rewrite length_map).
    rewrite length_app in IH. rewrite Hlen in *.
    destruct (dt_ltb start1 yr_from_now); nia.
  - injection H as <-. lia.
Qed.

(** With an item in the list every pass moves the date by a month at
    least, so the condition fails after at most as many passes as there
    are months up to the bound. *)
Lemma while_loop_terminates (desired_list : list string)
    (yr_from_now : datetime) :
  desired_list <> [] -> 1 <= month yr_from_now <= 12 ->
  forall fuel session start_date,
    1 <= month start_date <= 12 ->
    (Z.to_nat (month_index yr_from_now - month_index start_date + 1)
       < fuel)%nat ->
    while_loop uid rid update_relatp fuel desired_list yr_from_now
      session start_date <> OutOfFuel.
Proof.
  intros Hne Hyr. pose proof step_range as Hstep.
  induction fuel as [ | fuel IH ]; intros session start_date Hm Hfuel;
    [ lia | ].
  simpl. destruct (dt_ltb start_date yr_from_now) eqn:Hg;
    [ | discriminate ].
  destruct (for_desired_list uid rid update_relatp desired_list
              session start_date) as [ [session1 start1] | ] eqn:Hf;
    [ | discriminate ].
  destruct (for_desired_list_spec _ _ _ _ _ Hf) as (evs1 & -> & Hs1 & Hm1 & _).
  destruct (schedule_month_index _ _ _ Hs1 Hm) as [Hi1 Hmo1].
  pose proof (dt_lt_month_index _ _ Hm Hyr Hg) as Hle.
  assert (Hlen : (0 < length evs1)%nat).
  { rewrite <- (length_map rcmdn), Hm1.
    destruct desired_list; [ congruence | simpl; lia ]. }
  apply IH; [ exact Hmo1 | nia ].
Qed.

(** More fuel does not change a run that has ended. *)
Lemma while_loop_more_fuel (desired_list : list string)
    (yr_from_now : datetime) :
  forall fuel session start_date,
    while_loop uid rid update_relatp fuel desired_list yr_from_now
      session start_date <> OutOfFuel ->
    forall extra,
      while_loop uid rid update_relatp (fuel + extra) desired_list
        yr_from_now session start_date =
      while_loop uid rid update_relatp fuel desired_list yr_from_now
        session start_date.
Proof.
  induction fuel as [ | fuel IH ]; intros session start_date H extra;
    [ now contradiction H | ].
  simpl in *. destruct (dt_ltb start_date yr_from_now); [ | reflexivity ].
  destruct (for_desired_list uid rid update_relatp desired_list
              session start_date) as [ [session1 start1] | ];
    [ | reflexivity ].
  now apply IH.
Qed.

(** The loop raises only when a pass would leave the calendar. *)
Lemma while_loop_no_raise (desired_list : list string)
    (yr_from_now : datetime) :
  1 <= month yr_from_now <= 12 ->
  month_index yr_from_now + step * Z.of_nat (length desired_list)
    <= 12 * MAXYEAR + 12 ->
  forall fuel session start_date,
    1 <= month start_date <= 12 -> MINYEAR <= year start_date ->
    while_loop uid rid update_relatp fuel desired_list yr_from_now
      session start_date <> Raised.
Proof.
  intros Hyr Hroom. pose proof step_range as Hstep.
  induction fuel as [ | fuel IH ]; intros session start_date Hm Hy;
    simpl; [ discriminate | ].
  destruct (dt_ltb start_date yr_from_now) eqn:Hg; [ | discriminate ].
  pose proof (dt_lt_month_index _ _ Hm Hyr Hg) as Hle.
  destruct (for_desired_list_defined desired_list session start_date Hm Hy)
    as [ [session1 start1] Hf ]; [ lia | ].
  rewrite Hf.
  destruct (for_desired_list_spec _ _ _ _ _ Hf) as (evs1 & -> & Hs1 & _).
  destruct (schedule_month_index _ _ _ Hs1 Hm) as [Hi1 Hmo1].
  apply IH; [ exact Hmo1 | ].
  unfold month_index, MINYEAR in *. nia.
Qed.

(** With an empty list a pass changes nothing: the condition that held
    before it holds after it, whatever the fuel. *)
Lemma while_loop_empty (yr_from_now : datetime) (session : list Event)
    (start_date : datetime) :
  dt_ltb start_date yr_from_now = true ->
  forall fuel,
    while_loop uid rid update_relatp fuel [] yr_from_now session start_date
      = OutOfFuel.
Proof.
  intros Hg. induction fuel as [ | fuel IH ]; simpl; [ reflexivity | ].
  now rewrite Hg.
Qed.

End HandlerFacts.

(** ** Facts of a schedule *)

Section ScheduleFacts.

Variable k : Z.
Hypothesis k_range : 1 <= k <= 12.

Lemma schedule_first (d d' : datetime) (e : Event) (evs : list Event) :
  schedule k d (e :: evs) d' -> scheduled_at e = d.
Proof. inversion 1; assumption. Qed.

(** Each event is dated one shift after the event before it. *)
Lemma schedule_consecutive (d d' : datetime) (evs : list Event) :
  schedule k d evs d' ->
  forall i e e',
    nth_error evs i = Some e -> nth_error evs (S i) = Some e' ->
    replace_months k (scheduled_at e) = Some (scheduled_at e').
Proof.
  induction 1 as [ | d0 d1 d2 e0 evs He Hr Hs IH ]; intros i e e' Hi Hi'.
  - destruct i; discriminate.
  - destruct i as [ | i ]; simpl in Hi, Hi'.
    + injection Hi as <-. destruct evs as [ | e1 evs ]; [ discriminate | ].
      injection Hi' as <-. rewrite (schedule_first _ _ _ _ Hs), He.
      exact Hr.
    + eapply IH; eauto.
Qed.

(** Every event is followed by one shift, to the date of the next event
    when there is one. *)
Lemma schedule_advance (d d' : datetime) (evs : list Event) :
  schedule k d evs d' ->
  forall i e,
    nth_error evs i = Some e ->
    exists next,
      replace_months k (scheduled_at e) = Some next /\
      forall e', nth_error evs (S i) = Some e' -> scheduled_at e' = next.
Proof.
  induction 1 as [ | d0 d1 d2 e0 evs He Hr Hs IH ]; intros i e Hi.
  - destruct i; discriminate.
  - destruct i as [ | i ]; simpl in Hi.
    + injection Hi as <-. exists d1. rewrite He. split; [ exact Hr | ].
      intros e' He'. simpl in He'.
      destruct evs as [ | e1 evs ]; [ discriminate | ].
      injection He' as <-. eapply schedule_first; eauto.
    + destruct (IH _ _ Hi) as (next & Hn & Hnext).
      exists next. split; [ exact Hn | ]. intros e' He'. now apply Hnext.
Qed.

(** The dates of a schedule go strictly up, from the first date on. *)
Lemma schedule_sorted (d d' : datetime) (evs : list Event) :
  schedule k d evs d' -> 1 <= month d <= 12 ->
  StronglySorted dt_lt (map scheduled_at evs) /\
  Forall (fun x => x = d \/ dt_lt d x) (map scheduled_at evs).
Proof.
  induction 1 as [ | d0 d1 d2 e0 evs He Hr Hs IH ]; intros Hm; simpl.
  - split; constructor.
  - pose proof (replace_months_later _ _ _ Hm k_range Hr) as Hlt.
    destruct (relativedelta_add_spec 0 k d0 d1 Hm ltac:(lia) Hr)
      as (_ & Hm1 & _).
    destruct (IH Hm1) as [Hsorted Hall].
    assert (Hafter : Forall (dt_lt d0) (map scheduled_at evs)).
    { eapply Forall_impl; [ | exact Hall ].
      intros x [-> | Hx]; [ exact Hlt | eapply dt_lt_trans; eauto ]. }
    rewrite He. split; constructor; auto.
    eapply Forall_impl; [ | exact Hafter ]. intros x Hx. now right.
Qed.

End ScheduleFacts.

Lemma StronglySorted_dt_lt_NoDup (l : list datetime) :
  StronglySorted dt_lt l -> NoDup l.
Proof.
  induction 1 as [ | x l Hs IH Hall ]; constructor; auto.
  intros Hin. rewrite Forall_forall in Hall.
  exact (dt_lt_irrefl x (Hall x Hin)).
Qed.

(** Every shift follows the end-of-month rule. *)
Lemma relativedelta_add_policy (years months : Z) (dt dt' : datetime) :
  1 <= month dt <= 12 -> -11 <= months <= 12 ->
  relativedelta_add years months dt = Some dt' ->
  end_of_month_policy (12 * years + months) dt dt'.
Proof.
  intros Hm Hk H.
  destruct (relativedelta_add_spec _ _ _ _ Hm Hk H) as (Hi & Hm' & _ & Hd & Ht).
  unfold end_of_month_policy. repeat split; try lia.
  destruct (Z.ltb_spec (monthrange (year dt') (month dt')) (day dt)); lia.
Qed.

(** ** Facts of the handler *)

Section HandlerRun.

Variables (uid rid : Z).
Variable update_relatp : Relationship.

Let step : Z := step_of (relatp_type update_relatp).
Let created : datetime := created_date update_relatp.
Let run (fuel : nat) (desired_list : list string) : outcome :=
  method_specification_success uid rid update_relatp fuel desired_list.

(** The first date and the bound, when neither shift raises. *)
Lemma first_date_and_bound (start_date yr_from_now : datetime) :
  valid_datetime created ->
  replace_months 1 created = Some start_date ->
  replace_years 1 start_date = Some yr_from_now ->
  valid_datetime start_date /\ valid_datetime yr_from_now /\
  month_index start_date = month_index created + 1 /\
  month_index yr_from_now = month_index created + 13 /\
  dt_ltb start_date yr_from_now = true.
Proof.
  intros Hv H1 H2.
  assert (Hv1 : valid_datetime start_date)
    by (eapply relativedelta_add_valid; [ exact Hv | | exact H1 ]; lia).
  assert (Hv2 : valid_datetime yr_from_now)
    by (eapply relativedelta_add_valid; [ exact Hv1 | | exact H2 ]; lia).
  pose proof Hv as Hc. pose proof Hv1 as Hs. pose proof Hv2 as Hy.
  rewrite valid_datetime_spec in Hc, Hs, Hy.
  destruct (relativedelta_add_spec 0 1 _ _ (proj1 (proj2 Hc)) ltac:(lia) H1)
    as (Hi1 & _).
  destruct (relativedelta_add_spec 1 0 _ _ (proj1 (proj2 Hs)) ltac:(lia) H2)
    as (Hi2 & _).
  repeat split; try assumption; try lia.
  apply month_index_lt; lia.
Qed.

(** A run over a list with an item in it ends within fourteen tests of
    the loop condition. *)
Lemma run_ends (desired_list : list string) :
  valid_datetime created -> desired_list <> [] ->
  run 14 desired_list <> OutOfFuel.
Proof.
  intros Hv Hne. subst run. unfold method_specification_success. fold created.
  destruct (replace_months 1 created) as [ start_date | ] eqn:H1;
    [ | discriminate ].
  destruct (replace_years 1 start_date) as [ yr_from_now | ] eqn:H2;
    [ | discriminate ].
  destruct (first_date_and_bound _ _ Hv H1 H2) as (Hv1 & Hv2 & Hi1 & Hi2 & _).
  rewrite valid_datetime_spec in Hv1, Hv2.
  apply while_loop_terminates; try tauto.
  rewrite Hi1, Hi2.
  replace (month_index created + 13 - (month_index created + 1) + 1)
    with 13 by lia.
  simpl. lia.
Qed.

Lemma run_more_fuel (desired_list : list string) (fuel extra : nat) :
  run fuel desired_list <> OutOfFuel ->
  run (fuel + extra) desired_list = run fuel desired_list.
Proof.
  subst run. unfold method_specification_success.
  destruct (replace_months 1 (created_date update_relatp))
    as [ start_date | ]; [ | reflexivity ].
  destruct (replace_years 1 start_date) as [ yr_from_now | ];
    [ | reflexivity ].
  intros H. now apply while_loop_more_fuel.
Qed.

(** Two runs that ended agree, whatever fuel they had. *)
Lemma run_deterministic (desired_list : list string) (fuel1 fuel2 : nat) :
  run fuel1 desired_list <> OutOfFuel ->
  run fuel2 desired_list <> OutOfFuel ->
  run fuel1 desired_list = run fuel2 desired_list.
Proof.
  intros H1 H2. destruct (Nat.le_ge_cases fuel1 fuel2) as [Hle | Hle].
  - replace fuel2 with (fuel1 + (fuel2 - fuel1))%nat by lia.
    symmetry. now apply run_more_fuel.
  - replace fuel1 with (fuel2 + (fuel1 - fuel2))%nat by lia.
    now apply run_more_fuel.
Qed.

(** What a run that reached the commit has committed. *)
Lemma run_spec (desired_list : list string) (fuel : nat) (evs : list Event) :
  valid_datetime created ->
  run fuel desired_list = Done evs ->
  exists start_date yr_from_now last passes,
    replace_months 1 created = Some start_date /\
    replace_years 1 start_date = Some yr_from_now /\
    schedule step start_date evs last /\
    dt_ltb last yr_from_now = false /\
    map rcmdn evs = concat (repeat desired_list passes) /\
    Forall (fun e => user_id e = uid /\ relatp_id e = rid) evs /\
    step * Z.of_nat (length evs)
      <= step * Z.of_nat (length desired_list) + 12.
Proof.
  intros Hv. subst run. unfold method_specification_success. fold created.
  destruct (replace_months 1 created) as [ start_date | ] eqn:H1;
    [ | discriminate ].
  destruct (replace_years 1 start_date) as [ yr_from_now | ] eqn:H2;
    [ | discriminate ].
  intros H.
  destruct (first_date_and_bound _ _ Hv H1 H2) as (Hv1 & Hv2 & Hi1 & Hi2 & Hg).
  rewrite valid_datetime_spec in Hv1, Hv2.
  destruct (while_loop_spec _ _ _ _ _ _ _ _ _ H)
    as (evs' & last & passes & Heq & Hs & Hl & Hm & Hf).
  simpl in Heq. subst evs'.
  destruct Hv1 as (_ & Hmo1 & _). destruct Hv2 as (_ & Hmo2 & _).
  pose proof (while_loop_bound uid rid update_relatp desired_list yr_from_now
                Hmo2 _ _ _ _ Hmo1 H) as Hb.
  rewrite Hg in Hb. simpl length in Hb. fold step in Hb.
  exists start_date, yr_from_now, last, passes.
  repeat split; auto. lia.
Qed.

(** A run with room left in the calendar does not raise. *)
Lemma run_no_raise (desired_list : list string) (fuel : nat) :
  valid_datetime created ->
  within_calendar created (length desired_list) ->
  run fuel desired_list <> Raised.
Proof.
  intros Hv Hroom. unfold within_calendar in Hroom.
  pose proof Hv as Hc. rewrite valid_datetime_spec in Hc.
  destruct Hc as (Hy0 & Hm0 & _).
  pose proof (step_range update_relatp) as Hstep. fold step in Hstep.
  subst run. unfold method_specification_success. fold created.
  destruct (relativedelta_add_defined 0 1 created Hm0 ltac:(lia))
    as [start_date H1].
  { unfold month_index, MINYEAR, MAXYEAR in *. lia. }
  fold (replace_months 1 created) in H1. rewrite H1.
  destruct (relativedelta_add_spec 0 1 _ _ Hm0 ltac:(lia) H1)
    as (Hi1 & Hm1 & Hy1 & _).
  destruct (relativedelta_add_defined 1 0 start_date Hm1 ltac:(lia))
    as [yr_from_now H2].
  { unfold month_index, MINYEAR, MAXYEAR in *. lia. }
  fold (replace_years 1 start_date) in H2. rewrite H2.
  destruct (relativedelta_add_spec 1 0 _ _ Hm1 ltac:(lia) H2)
    as (Hi2 & Hm2 & _).
  apply while_loop_no_raise; try tauto; try lia.
  fold step. nia.
Qed.

(** With an empty list the run never leaves the loop. *)
Lemma run_empty_list (fuel : nat) :
  valid_datetime created -> year created <= MAXYEAR - 2 ->
  run fuel [] = OutOfFuel.
Proof.
  intros Hv Hy. pose proof Hv as Hc. rewrite valid_datetime_spec in Hc.
  destruct Hc as (Hy0 & Hm0 & _).
  subst run. unfold method_specification_success. fold created.
  destruct (relativedelta_add_defined 0 1 created Hm0 ltac:(lia))
    as [start_date H1].
  { unfold month_index, MINYEAR, MAXYEAR in *. lia. }
  fold (replace_months 1 created) in H1. rewrite H1.
  destruct (relativedelta_add_spec 0 1 _ _ Hm0 ltac:(lia) H1)
    as (Hi1 & Hm1 & Hy1 & _).
  destruct (relativedelta_add_defined 1 0 start_date Hm1 ltac:(lia))
    as [yr_from_now H2].
  { unfold month_index, MINYEAR, MAXYEAR in *. lia. }
  fold (replace_years 1 start_date) in H2. rewrite H2.
  destruct (first_date_and_bound _ _ Hv H1 H2) as (_ & _ & _ & _ & Hg).
  now apply while_loop_empty.
Qed.

(** With an item in the list and room in the calendar the run commits,
    and commits at least one event. *)
Lemma run_done (desired_list : list string) :
  valid_datetime created -> desired_list <> [] ->
  within_calendar created (length desired_list) ->
  exists evs, run 14 desired_list = Done evs /\ evs <> [].
Proof.
  intros Hv Hne Hroom.
  destruct (run 14 desired_list) as [ evs | | ] eqn:Hr.
  - exists evs. split; [ reflexivity | ]. intros ->.
    destruct (run_spec _ _ _ Hv Hr)
      as (start_date & yr_from_now & last & passes & H1 & H2 & Hs & Hl & _).
    destruct (first_date_and_bound _ _ Hv H1 H2) as (_ & _ & _ & _ & Hg).
    inversion Hs; subst. congruence.
  - exfalso. exact (run_no_raise _ _ Hv Hroom Hr).
  - exfalso. exact (run_ends _ Hv Hne Hr).
Qed.

(** The outcome of a run over a list with an item in it: the same for
    every fuel from fourteen on. *)
Lemma run_outcome (desired_list : list string) :
  valid_datetime created -> desired_list <> [] ->
  exists r,
    r <> OutOfFuel /\
    forall extra, run (14 + extra) desired_list = r.
Proof.
  intros Hv Hne. exists (run 14 desired_list).
  pose proof (run_ends _ Hv Hne) as He. split; [ exact He | ].
  intros extra. now apply run_more_fuel.
Qed.

End HandlerRun.

(** The loop body looks at the category only to tell the friend and family
    codes from the rest. *)
Lemma for_desired_list_other_code (uid rid : Z) (r : Relationship)
    (desired_list : list string) :
  relatp_type r <> "fr" -> relatp_type r <> "fam" ->
  forall session start_date,
    for_desired_list uid rid r desired_list session start_date =
    for_desired_list uid rid (as_professional r) desired_list
      session start_date.
Proof.
  intros Hfr Hfam.
  apply String.eqb_neq in Hfr. apply String.eqb_neq in Hfam.
  induction desired_list as [ | item rest IH ]; intros session start_date;
    simpl; [ reflexivity | ].
  rewrite Hfr, Hfam. simpl.
  destruct (replace_months 4 start_date); simpl; [ apply IH | reflexivity ].
Qed.

Lemma while_loop_other_code (uid rid : Z) (r : Relationship)
    (desired_list : list string) (yr_from_now : datetime) :
  relatp_type r <> "fr" -> relatp_type r <> "fam" ->
  forall fuel session start_date,
    while_loop uid rid r fuel desired_list yr_from_now session start_date =
    while_loop uid rid (as_professional r) fuel desired_list yr_from_now
      session start_date.
Proof.
  intros Hfr Hfam.
  induction fuel as [ | fuel IH ]; intros session start_date; simpl;
    [ reflexivity | ].
  rewrite (for_desired_list_other_code _ _ _ _ Hfr Hfam).
  destruct (dt_ltb start_date yr_from_now); [ | reflexivity ].
  destruct (for_desired_list uid rid (as_professional r) desired_list
              session start_date) as [ [session1 start1] | ];
    [ apply IH | reflexivity ].
Qed.

Lemma step_of_other_code (code : string) :
  code <> "fr" -> code <> "fam" -> step_of code = 4.
Proof.
  intros Hfr Hfam. unfold step_of.
  apply String.eqb_neq in Hfr. apply String.eqb_neq in Hfam.
  now rewrite Hfr, Hfam.
Qed.

(** ** The window of the dates, for one method *)

(** The bound of the loop, a year after the first date, is not later than
    the date thirteen months after the creation: both lie in the same month,
    and the day of the first was cut down once more. *)
Lemma bound_not_after_thirteen_months (created start_date yr_from_now
    : datetime) :
  valid_datetime created ->
  replace_months 1 created = Some start_date ->
  replace_years 1 start_date = Some yr_from_now ->
  exists hi,
    relativedelta_add 1 1 created = Some hi /\
    forall d, dt_ltb d yr_from_now = true -> dt_ltb d hi = true.
Proof.
  intros Hv H1 H2. pose proof Hv as Hc. rewrite valid_datetime_spec in Hc.
  destruct Hc as (Hy & Hm & _).
  destruct (relativedelta_add_spec 0 1 _ _ Hm ltac:(lia) H1)
    as (Hi1 & Hm1 & Hy1 & Hd1 & Ht1).
  destruct (relativedelta_add_spec 1 0 _ _ Hm1 ltac:(lia) H2)
    as (Hi2 & Hm2 & Hy2 & Hd2 & Ht2).
  destruct (relativedelta_add_defined 1 1 created Hm ltac:(lia)) as [hi Hh].
  { unfold month_index, MINYEAR, MAXYEAR in *. lia. }
  destruct (relativedelta_add_spec 1 1 _ _ Hm ltac:(lia) Hh)
    as (Hi3 & Hm3 & Hy3 & Hd3 & Ht3).
  exists hi. split; [ exact Hh | ].
  assert (Hsame : year hi = year yr_from_now /\ month hi = month yr_from_now)
    by (unfold month_index in *; lia).
  destruct Hsame as [Hsy Hsm]. rewrite Hsy, Hsm in Hd3.
  intros d. rewrite !dt_ltb_spec. lia.
Qed.

(** With one method every event is dated by a date that passed the test of
    the loop, and so lies in the window. *)
Lemma while_loop_single_method (uid rid : Z) (r : Relationship)
    (method : string) (yr_from_now : datetime) :
  forall fuel session start_date out,
    while_loop uid rid r fuel [method] yr_from_now session start_date
    = Done out ->
    exists evs,
      out = session ++ evs /\
      Forall (fun e => dt_ltb (scheduled_at e) yr_from_now = true) evs.
Proof.
  induction fuel as [ | fuel IH ]; intros session start_date out H;
    cbn [while_loop] in H; [ discriminate | ].
  destruct (dt_ltb start_date yr_from_now) eqn:Hg.
  - rewrite for_desired_list_cons in H. unfold bind in H.
    destruct (replace_months (step_of (relatp_type r)) start_date)
      as [ next | ]; [ | discriminate ].
    simpl in H. destruct (IH _ _ _ H) as (evs & -> & Hall).
    exists (mkEvent uid rid method start_date :: evs).
    rewrite <- app_assoc. split; [ reflexivity | ].
    constructor; [ exact Hg | exact Hall ].
  - injection H as <-. exists []. rewrite app_nil_r. split; constructor.
Qed.

Lemma single_method_in_window (uid rid : Z) (r : Relationship)
    (method : string) (fuel : nat) (evs : list Event) :
  valid_datetime (created_date r) ->
  method_specification_success uid rid r fuel [method] = Done evs ->
  Forall (fun e => in_window (created_date r) (scheduled_at e) = true) evs.
Proof.
  intros Hv Hr.
  destruct (run_spec uid rid r _ _ _ Hv Hr)
    as (start_date & yr & last & passes & H1 & H2 & Hs & _).
  destruct (first_date_and_bound r _ _ Hv H1 H2) as (Hv1 & _).
  rewrite valid_datetime_spec in Hv1. destruct Hv1 as (_ & Hm1 & _).
  destruct (bound_not_after_thirteen_months _ _ _ Hv H1 H2) as (hi & Hh & Hle).
  pose proof (step_range r) as Hstep.
  assert (Hk : 1 <= step_of (relatp_type r) <= 12) by lia.
  destruct (schedule_sorted _ Hk _ _ _ Hs Hm1) as [_ Hlo].
  unfold method_specification_success in Hr. rewrite H1, H2 in Hr.
  destruct (while_loop_single_method _ _ _ _ _ _ _ _ _ Hr)
    as (evs' & Heq & Hup).
  simpl in Heq. subst evs'.
  rewrite Forall_forall in *. intros e He.
  unfold in_window. rewrite H1, Hh.
  apply andb_true_iff. split.
  - apply negb_true_iff.
    destruct (Hlo (scheduled_at e) (in_map _ _ _ He)) as [-> | Hlt].
    + destruct (dt_ltb start_date start_date) eqn:E; [ | reflexivity ].
      exfalso. exact (dt_lt_irrefl _ E).
    + destruct (dt_ltb (scheduled_at e) start_date) eqn:E; [ | reflexivity ].
      exfalso. exact (dt_lt_irrefl _ (dt_lt_trans _ _ _ Hlt E)).
  - apply Hle. now apply Hup.
Qed.

(** ** Sample runs *)

(** A friend created on 2023-07-31 with one method: the day falls from 31
    to 30 and then to 29, the thirteenth date 2024-08-29 is still before the
    bound 2024-08-31, and the run commits thirteen events, one more than the
    months of the year. *)
Lemma july31_thirteen_events :
  exists evs,
    generate 14 "fr" (date 2023 7 31) ["call"] = Done evs /\
    length evs = 13%nat /\
    nth_error evs 12 = Some (ev "call" (mkDatetime 2024 8 29 0)).
Proof.
  eexists. split; [ vm_compute; reflexivity | ]. split; reflexivity.
Qed.

(** A friend with five methods: the third pass starts at 2024-12-15 and runs
    on to 2025-04-15, two months past the bound 2025-02-15. *)
Lemma five_methods_overshoot :
  exists evs,
    generate 14 "fr" (date 2024 1 15) ["a"; "b"; "c"; "d"; "e"] = Done evs /\
    length evs = 15%nat /\
    nth_error evs 14 = Some (ev "e" (date 2025 4 15)).
Proof.
  eexists. split; [ vm_compute; reflexivity | ]. split; reflexivity.
Qed.

(** ** The claims of the specification *)

(** C1, as stated, fails: for a contact created on 2024-01-15 with the
    friend code and the methods call and email, the first two events of the
    run, which the claim puts in one group at one date, are a month apart. *)
Lemma C1_first_group_has_two_dates :
  exists evs,
    generate 14 "fr" (date 2024 1 15) ["call"; "email"] = Done evs /\
    nth_error evs 0 = Some (ev "call" (date 2024 2 15)) /\
    nth_error evs 1 = Some (ev "email" (date 2024 3 15)) /\
    ~ groups_share_date 2 evs.
Proof.
  eexists. split; [ vm_compute; reflexivity | ].
  split; [ reflexivity | ]. split; [ reflexivity | ].
  intros H.
  specialize (H 0%nat 1%nat _ _ eq_refl eq_refl eq_refl).
  cbv in H. congruence.
Qed.

(** C1, amended: for a valid creation date, a list with a method in it and
    room left in the calendar, the run commits; the first event is dated one
    month after the creation; the date is advanced after every single event,
    so that each event is dated exactly one step after the event before it
    (1 month for the friend and family codes, 4 months for the professional
    code); and the methods of the events are the list taken over and over, in
    its order, a whole number of times. *)
Theorem C1_one_step_after_every_event (uid rid : Z) (r : Relationship)
    (desired_list : list string) :
  valid_datetime (created_date r) ->
  desired_list <> [] ->
  within_calendar (created_date r) (length desired_list) ->
  exists evs start_date passes,
    (forall extra,
        method_specification_success uid rid r (14 + extra) desired_list
        = Done evs) /\
    replace_months 1 (created_date r) = Some start_date /\
    (exists e, nth_error evs 0 = Some e /\ scheduled_at e = start_date) /\
    (forall i e e',
        nth_error evs i = Some e -> nth_error evs (S i) = Some e' ->
        replace_months (step_of (relatp_type r)) (scheduled_at e)
        = Some (scheduled_at e')) /\
    map rcmdn evs = concat (repeat desired_list passes) /\
    step_of "fr" = 1 /\ step_of "fam" = 1 /\ step_of "prf" = 4.
Proof.
  intros Hv Hne Hroom.
  destruct (run_done uid rid r desired_list Hv Hne Hroom) as (evs & Hr & Hevs).
  destruct (run_spec uid rid r _ _ _ Hv Hr)
    as (start_date & yr & last & passes & H1 & H2 & Hs & _ & Hm & _).
  exists evs, start_date, passes.
  split; [ | split; [ exact H1 | ] ].
  2: split; [ | split; [ | split; [ exact Hm | ] ] ].
  - intros extra. rewrite run_more_fuel; [ exact Hr | ].
    rewrite Hr. discriminate.
  - destruct evs as [ | e evs ]; [ congruence | ].
    exists e. split; [ reflexivity | ].
    eapply schedule_first; eauto.
  - intros i e e'. eapply schedule_consecutive; eauto.
  - split; [ | split ]; reflexivity.
Qed.

Lemma C1_one_step_after_every_event_witness :
  valid_datetime (date 2024 1 15) /\
  ["call"; "email"] <> [] /\
  within_calendar (date 2024 1 15) 2 /\
  exists evs start_date passes,
    (forall extra, generate (14 + extra) "fr" (date 2024 1 15)
                     ["call"; "email"] = Done evs) /\
    replace_months 1 (date 2024 1 15) = Some start_date /\
    (exists e, nth_error evs 0 = Some e /\ scheduled_at e = start_date) /\
    (forall i e e',
        nth_error evs i = Some e -> nth_error evs (S i) = Some e' ->
        replace_months (step_of "fr") (scheduled_at e)
        = Some (scheduled_at e')) /\
    map rcmdn evs = concat (repeat ["call"; "email"] passes) /\
    step_of "fr" = 1 /\ step_of "fam" = 1 /\ step_of "prf" = 4.
Proof.
  assert (Hv : valid_datetime (date 2024 1 15)) by reflexivity.
  assert (Hne : ["call"; "email"] <> []) by discriminate.
  assert (Hroom : within_calendar (date 2024 1 15) 2)
    by (vm_compute; discriminate).
  refine (conj Hv (conj Hne (conj Hroom _))).
  exact (C1_one_step_after_every_event 1 7 (contact "fr" (date 2024 1 15))
           ["call"; "email"] Hv Hne Hroom).
Defined.

(** C2, at the failing input: for a contact created on 2024-01-15 with the
    professional code and the methods call and email, the second pass starts
    at 2024-10-15, before the bound, and its second event is dated
    2025-02-15, which is the bound itself, thirteen months after the
    creation: the event is committed outside the window. *)
Theorem C2_event_dated_on_the_bound :
  (forall extra,
      generate (3 + extra) "prf" (date 2024 1 15) ["call"; "email"]
      = Done [ev "call" (date 2024 2 15); ev "email" (date 2024 6 15);
              ev "call" (date 2024 10 15); ev "email" (date 2025 2 15)]) /\
  relativedelta_add 1 1 (date 2024 1 15) = Some (date 2025 2 15) /\
  in_window (date 2024 1 15) (date 2025 2 15) = false.
Proof.
  split; [ | split; reflexivity ].
  intros extra. unfold generate.
  rewrite run_more_fuel; [ vm_compute; reflexivity | vm_compute; discriminate ].
Qed.

(** C3, on the code: with an empty list of methods a pass of the loop adds
    no event and does not move the date, so the loop condition, true before
    the first pass, stays true: the run never reaches the commit, whatever
    fuel it is given.  (Creation dates of the last two years of the calendar
    are left out: there the bound itself cannot be built.) *)
Theorem C3_empty_list_never_returns (uid rid : Z) (r : Relationship)
    (fuel : nat) :
  valid_datetime (created_date r) ->
  year (created_date r) <= MAXYEAR - 2 ->
  method_specification_success uid rid r fuel [] = OutOfFuel.
Proof.
  intros Hv Hy. now apply run_empty_list.
Qed.

Lemma C3_empty_list_never_returns_witness :
  valid_datetime (date 2024 1 15) /\
  year (date 2024 1 15) <= MAXYEAR - 2 /\
  generate 1000 "fr" (date 2024 1 15) [] = OutOfFuel.
Proof.
  assert (Hv : valid_datetime (date 2024 1 15)) by reflexivity.
  assert (Hy : year (date 2024 1 15) <= MAXYEAR - 2)
    by (vm_compute; discriminate).
  refine (conj Hv (conj Hy _)).
  exact (C3_empty_list_never_returns 1 7 (contact "fr" (date 2024 1 15))
           1000 Hv Hy).
Defined.

(** C4, at the failing inputs: with the empty list the loop is never left,
    whatever the fuel (the defect of C3); and with a list of 157 methods the
    one pass, started before the bound 2025-02-15, runs on without a test of
    the bound to 2037-02-15, twelve years past it (the defect of C2), and
    commits 157 events, more than the bound of the claim. *)
Theorem C4_empty_list_loops_and_long_list_exceeds :
  (forall fuel, generate fuel "fr" (date 2024 1 15) [] = OutOfFuel) /\
  (exists evs,
      generate 14 "fr" (date 2024 1 15) (repeat "call" 157) = Done evs /\
      length evs = 157%nat /\ (156 < length evs)%nat /\
      nth_error evs 156 = Some (ev "call" (date 2037 2 15))).
Proof.
  split.
  - intros fuel. unfold generate. apply run_empty_list.
    + reflexivity.
    + vm_compute. discriminate.
  - eexists. split; [ vm_compute; reflexivity | ].
    split; [ reflexivity | ]. split; [ simpl; lia | reflexivity ].
Qed.

(** C5, as stated, fails: the run of the example commits twelve events,
    not the twenty-four of the specification. *)
Lemma C5_twelve_events_not_twenty_four :
  exists evs,
    generate 14 "fr" (date 2024 1 15) ["call"; "email"] = Done evs /\
    length evs = 12%nat /\
    length spec_example_friend = 24%nat /\
    evs <> spec_example_friend.
Proof.
  eexists. split; [ vm_compute; reflexivity | ].
  split; [ reflexivity | ]. split; [ reflexivity | ].
  intros H. apply (f_equal (@length Event)) in H. cbv in H. congruence.
Qed.

(** C5, amended: for a contact created on 2024-01-15 as a friend, with the
    methods call and email, the run commits exactly twelve events, one a
    month from 2024-02-15 to 2025-01-15, the call and the email taking
    turns, the call first. *)
Theorem C5_friend_example_alternates :
  forall extra,
    generate (7 + extra) (contact_added_relatp_type (Some "friend"))
      (date 2024 1 15) ["call"; "email"]
    = Done [ev "call" (date 2024 2 15); ev "email" (date 2024 3 15);
            ev "call" (date 2024 4 15); ev "email" (date 2024 5 15);
            ev "call" (date 2024 6 15); ev "email" (date 2024 7 15);
            ev "call" (date 2024 8 15); ev "email" (date 2024 9 15);
            ev "call" (date 2024 10 15); ev "email" (date 2024 11 15);
            ev "call" (date 2024 12 15); ev "email" (date 2025 1 15)].
Proof.
  intros extra. unfold generate.
  rewrite run_more_fuel; [ vm_compute; reflexivity | vm_compute; discriminate ].
Qed.

(** C6: for a contact created on 2024-01-15 as a professional one, with the
    method call, the run commits exactly three events, dated 2024-02-15,
    2024-06-15 and 2024-10-15. *)
Theorem C6_professional_example :
  forall extra,
    generate (4 + extra) (contact_added_relatp_type (Some "professional"))
      (date 2024 1 15) ["call"]
    = Done [ev "call" (date 2024 2 15); ev "call" (date 2024 6 15);
            ev "call" (date 2024 10 15)].
Proof.
  intros extra. unfold generate.
  rewrite run_more_fuel; [ vm_compute; reflexivity | vm_compute; discriminate ].
Qed.

(** C7, as stated, fails: with a category code that is none of the three
    the run raises nothing and commits three events. *)
Lemma C7_unrecognized_category_is_scheduled :
  generate 14 "colleague" (date 2024 1 15) ["call"]
  = Done [ev "call" (date 2024 2 15); ev "call" (date 2024 6 15);
          ev "call" (date 2024 10 15)].
Proof. vm_compute. reflexivity. Qed.

(** C7, amended: when the category code is none of the three, the run
    raises no error for it: for a valid creation date, a list with a method
    in it and room left in the calendar it commits a non-empty sequence of
    events, each four months after the one before it. *)
Theorem C7_unrecognized_category_raises_nothing (uid rid : Z)
    (r : Relationship) (desired_list : list string) :
  valid_datetime (created_date r) ->
  desired_list <> [] ->
  within_calendar (created_date r) (length desired_list) ->
  relatp_type r <> "fr" -> relatp_type r <> "fam" -> relatp_type r <> "prf" ->
  exists evs,
    (forall extra,
        method_specification_success uid rid r (14 + extra) desired_list
        = Done evs) /\
    evs <> [] /\
    (forall i e e',
        nth_error evs i = Some e -> nth_error evs (S i) = Some e' ->
        replace_months 4 (scheduled_at e) = Some (scheduled_at e')).
Proof.
  intros Hv Hne Hroom Hfr Hfam _.
  destruct (run_done uid rid r desired_list Hv Hne Hroom) as (evs & Hr & Hevs).
  destruct (run_spec uid rid r _ _ _ Hv Hr)
    as (start_date & yr & last & passes & _ & _ & Hs & _).
  rewrite (step_of_other_code _ Hfr Hfam) in Hs.
  exists evs. split; [ | split; [ exact Hevs | ] ].
  - intros extra. rewrite run_more_fuel; [ exact Hr | ].
    rewrite Hr. discriminate.
  - intros i e e'. eapply schedule_consecutive; eauto.
Qed.

Lemma C7_unrecognized_category_raises_nothing_witness :
  valid_datetime (date 2024 1 15) /\
  ["call"] <> [] /\
  within_calendar (date 2024 1 15) 1 /\
  "colleague" <> "fr" /\ "colleague" <> "fam" /\ "colleague" <> "prf" /\
  exists evs,
    (forall extra,
        generate (14 + extra) "colleague" (date 2024 1 15) ["call"]
        = Done evs) /\
    evs <> [] /\
    (forall i e e',
        nth_error evs i = Some e -> nth_error evs (S i) = Some e' ->
        replace_months 4 (scheduled_at e) = Some (scheduled_at e')).
Proof.
  assert (Hv : valid_datetime (date 2024 1 15)) by reflexivity.
  assert (Hne : ["call"] <> []) by discriminate.
  assert (Hroom : within_calendar (date 2024 1 15) 1)
    by (vm_compute; discriminate).
  assert (H1 : "colleague" <> "fr") by discriminate.
  assert (H2 : "colleague" <> "fam") by discriminate.
  assert (H3 : "colleague" <> "prf") by discriminate.
  refine (conj Hv (conj Hne (conj Hroom (conj H1 (conj H2 (conj H3 _)))))).
  exact (C7_unrecognized_category_raises_nothing 1 7
           (contact "colleague" (date 2024 1 15)) ["call"]
           Hv Hne Hroom H1 H2 H3).
Defined.

(** C8: when the contact was created on the 31st of a month, every advance
    of a run that reaches the commit follows the one end-of-month rule of
    the date library: the first date is one month after the creation and,
    the day 31 being at or past the end of any month, falls on the last day
    of its month; the bound is twelve months after the first date; and each
    event is followed by an advance of one step, to the date of the next
    event when there is one; in each of them the day is kept unless the
    month reached is shorter, and is then the last day of that month. *)
Theorem C8_every_advance_follows_one_rule (uid rid : Z) (r : Relationship)
    (desired_list : list string) (fuel : nat) (evs : list Event) :
  valid_datetime (created_date r) ->
  day (created_date r) = 31 ->
  method_specification_success uid rid r fuel desired_list = Done evs ->
  exists start_date yr_from_now,
    replace_months 1 (created_date r) = Some start_date /\
    replace_years 1 start_date = Some yr_from_now /\
    end_of_month_policy 1 (created_date r) start_date /\
    day start_date = monthrange (year start_date) (month start_date) /\
    end_of_month_policy 12 start_date yr_from_now /\
    (forall e, nth_error evs 0 = Some e -> scheduled_at e = start_date) /\
    (forall i e,
        nth_error evs i = Some e ->
        exists next,
          replace_months (step_of (relatp_type r)) (scheduled_at e)
          = Some next /\
          end_of_month_policy (step_of (relatp_type r)) (scheduled_at e) next /\
          forall e', nth_error evs (S i) = Some e' -> scheduled_at e' = next).
Proof.
  intros Hv H31 Hr.
  destruct (run_spec uid rid r _ _ _ Hv Hr)
    as (start_date & yr & last & passes & H1 & H2 & Hs & _).
  destruct (first_date_and_bound r _ _ Hv H1 H2) as (Hv1 & Hv2 & _).
  pose proof (step_range r) as Hstep.
  pose proof Hv as Hc. rewrite valid_datetime_spec in Hc.
  pose proof Hv1 as Hc1. rewrite valid_datetime_spec in Hc1.
  destruct Hc as (_ & Hm & _). destruct Hc1 as (_ & Hm1 & _).
  pose proof (relativedelta_add_policy 0 1 _ _ Hm ltac:(lia) H1) as Hp1.
  pose proof (relativedelta_add_policy 1 0 _ _ Hm1 ltac:(lia) H2) as Hp2.
  change (12 * 0 + 1) with 1 in Hp1. change (12 * 1 + 0) with 12 in Hp2.
  exists start_date, yr.
  split; [ exact H1 | ]. split; [ exact H2 | ]. split; [ exact Hp1 | ].
  split; [ | split; [ exact Hp2 | split ] ].
  - destruct Hp1 as (_ & Hm1' & Hd & _). rewrite H31 in Hd.
    pose proof (monthrange_bounds (year start_date) (month start_date) Hm1').
    destruct (Z.ltb_spec (monthrange (year start_date) (month start_date)) 31);
      lia.
  - intros e He. destruct evs as [ | e0 evs ]; [ discriminate | ].
    injection He as <-. eapply schedule_first; eauto.
  - intros i e He.
    assert (Hk : 1 <= step_of (relatp_type r) <= 12) by lia.
    destruct (schedule_advance _ _ _ _ Hs _ _ He) as (next & Hn & Hnext).
    exists next. split; [ exact Hn | ]. split; [ | exact Hnext ].
    destruct (schedule_valid r _ _ _ Hs Hv1) as [_ Hall].
    rewrite Forall_forall in Hall.
    pose proof (Hall e (nth_error_In _ _ He)) as Hve.
    rewrite valid_datetime_spec in Hve. destruct Hve as (_ & Hme & _).
    pose proof (relativedelta_add_policy 0 (step_of (relatp_type r)) _ _ Hme
                  ltac:(lia) Hn) as Hp.
    replace (12 * 0 + step_of (relatp_type r))
      with (step_of (relatp_type r)) in Hp by lia.
    exact Hp.
Qed.

Lemma C8_every_advance_follows_one_rule_witness :
  valid_datetime (date 2023 1 31) /\
  day (date 2023 1 31) = 31 /\
  generate 14 "fr" (date 2023 1 31) ["call"] = Done jan31_events /\
  exists start_date yr_from_now,
    replace_months 1 (date 2023 1 31) = Some start_date /\
    replace_years 1 start_date = Some yr_from_now /\
    end_of_month_policy 1 (date 2023 1 31) start_date /\
    day start_date = monthrange (year start_date) (month start_date) /\
    end_of_month_policy 12 start_date yr_from_now /\
    (forall e, nth_error jan31_events 0 = Some e ->
               scheduled_at e = start_date) /\
    (forall i e,
        nth_error jan31_events i = Some e ->
        exists next,
          replace_months (step_of "fr") (scheduled_at e) = Some next /\
          end_of_month_policy (step_of "fr") (scheduled_at e) next /\
          forall e', nth_error jan31_events (S i) = Some e' ->
                     scheduled_at e' = next).
Proof.
  assert (Hv : valid_datetime (date 2023 1 31)) by reflexivity.
  assert (H31 : day (date 2023 1 31) = 31) by reflexivity.
  assert (Hr : generate 14 "fr" (date 2023 1 31) ["call"] = Done jan31_events)
    by (vm_compute; reflexivity).
  refine (conj Hv (conj H31 (conj Hr _))).
  exact (C8_every_advance_follows_one_rule 1 7
           (contact "fr" (date 2023 1 31)) ["call"] 14 jan31_events
           Hv H31 Hr).
Defined.

(** C9: for every category code other than the friend and family codes the
    run is the run of the same contact with the professional code, fuel for
    fuel, with the step of four months; the code adds no error of its own
    (with a valid creation date and room left in the calendar the run does
    not raise); and [contact_added] stores the professional code for every
    submitted kind other than friend and family, an absent one included. *)
Theorem C9_other_codes_run_as_professional (uid rid : Z) (r : Relationship)
    (desired_list : list string) (fuel : nat) :
  relatp_type r <> "fr" -> relatp_type r <> "fam" ->
  method_specification_success uid rid r fuel desired_list
  = method_specification_success uid rid (as_professional r) fuel
      desired_list /\
  step_of (relatp_type r) = 4 /\
  (valid_datetime (created_date r) ->
   within_calendar (created_date r) (length desired_list) ->
   method_specification_success uid rid r fuel desired_list <> Raised) /\
  (forall relatp,
      relatp <> Some "friend" -> relatp <> Some "family" ->
      contact_added_relatp_type relatp = "prf").
Proof.
  intros Hfr Hfam. split; [ | split; [ | split ] ].
  - unfold method_specification_success. simpl created_date.
    destruct (replace_months 1 (created_date r)) as [ start_date | ];
      [ | reflexivity ].
    destruct (replace_years 1 start_date) as [ yr_from_now | ];
      [ | reflexivity ].
    now apply while_loop_other_code.
  - now apply step_of_other_code.
  - intros Hv Hroom. now apply run_no_raise.
  - intros [ s | ] H1 H2; simpl; [ | reflexivity ].
    destruct (String.eqb_spec s "friend") as [ -> | _ ]; [ congruence | ].
    destruct (String.eqb_spec s "family") as [ -> | _ ]; [ congruence | ].
    reflexivity.
Qed.

Lemma C9_other_codes_run_as_professional_witness :
  "colleague" <> "fr" /\ "colleague" <> "fam" /\
  generate 14 "colleague" (date 2024 1 15) ["call"; "email"]
  = generate 14 "prf" (date 2024 1 15) ["call"; "email"] /\
  step_of "colleague" = 4 /\
  (valid_datetime (date 2024 1 15) ->
   within_calendar (date 2024 1 15) 2 ->
   generate 14 "colleague" (date 2024 1 15) ["call"; "email"] <> Raised) /\
  (forall relatp,
      relatp <> Some "friend" -> relatp <> Some "family" ->
      contact_added_relatp_type relatp = "prf").
Proof.
  assert (H1 : "colleague" <> "fr") by discriminate.
  assert (H2 : "colleague" <> "fam") by discriminate.
  refine (conj H1 (conj H2 _)).
  exact (C9_other_codes_run_as_professional 1 7
           (contact "colleague" (date 2024 1 15)) ["call"; "email"] 14 H1 H2).
Defined.

(** C10: for a valid creation date, a list with a method in it and any
    category code, the run ends, and the dates of the events it commits, in
    the order of the output, go strictly up: each event is dated strictly
    later than every event before it, and no two events share a date. *)
Theorem C10_dates_strictly_increase (uid rid : Z) (r : Relationship)
    (desired_list : list string) :
  valid_datetime (created_date r) ->
  desired_list <> [] ->
  exists res,
    res <> OutOfFuel /\
    (forall extra,
        method_specification_success uid rid r (14 + extra) desired_list
        = res) /\
    StronglySorted dt_lt (map scheduled_at (committed res)) /\
    NoDup (map scheduled_at (committed res)).
Proof.
  intros Hv Hne.
  destruct (run_outcome uid rid r desired_list Hv Hne) as (res & Hres & Hfuel).
  exists res. split; [ exact Hres | ]. split; [ exact Hfuel | ].
  assert (Hs : StronglySorted dt_lt (map scheduled_at (committed res))).
  { destruct res as [ evs | | ]; simpl; try constructor.
    specialize (Hfuel O).
    destruct (run_spec uid rid r _ _ _ Hv Hfuel)
      as (start_date & yr & last & passes & H1 & H2 & Hs & _).
    destruct (first_date_and_bound r _ _ Hv H1 H2) as (Hv1 & _).
    rewrite valid_datetime_spec in Hv1. destruct Hv1 as (_ & Hm1 & _).
    pose proof (step_range r) as Hstep.
    assert (Hk : 1 <= step_of (relatp_type r) <= 12) by lia.
    exact (proj1 (schedule_sorted _ Hk _ _ _ Hs Hm1)). }
  split; [ exact Hs | now apply StronglySorted_dt_lt_NoDup ].
Qed.

Lemma C10_dates_strictly_increase_witness :
  valid_datetime (date 2024 1 15) /\
  ["call"; "email"] <> [] /\
  exists res,
    res <> OutOfFuel /\
    (forall extra,
        generate (14 + extra) "fr" (date 2024 1 15) ["call"; "email"] = res) /\
    StronglySorted dt_lt (map scheduled_at (committed res)) /\
    NoDup (map scheduled_at (committed res)).
Proof.
  assert (Hv : valid_datetime (date 2024 1 15)) by reflexivity.
  assert (Hne : ["call"; "email"] <> []) by discriminate.
  refine (conj Hv (conj Hne _)).
  exact (C10_dates_strictly_increase 1 7 (contact "fr" (date 2024 1 15))
           ["call"; "email"] Hv Hne).
Defined.

(** ** More facts of a schedule *)

Section ScheduleMonths.

Variable k : Z.
Hypothesis k_range : 1 <= k <= 12.

(** The month of the event at position [i] of a schedule. *)
Lemma schedule_nth_month_index (d d' : datetime) (evs : list Event) :
  schedule k d evs d' -> 1 <= month d <= 12 ->
  forall i e,
    nth_error evs i = Some e ->
    month_index (scheduled_at e) = month_index d + k * Z.of_nat i /\
    1 <= month (scheduled_at e) <= 12.
Proof.
  induction 1 as [ | d0 d1 d2 e0 evs He Hr Hs IH ]; intros Hm i e Hi.
  - destruct i; discriminate.
  - destruct i as [ | i ]; simpl in Hi.
    + injection Hi as <-. rewrite He. split; [ lia | exact Hm ].
    + destruct (relativedelta_add_spec 0 k d0 d1 Hm ltac:(lia) Hr)
        as (Hi1 & Hm1 & _).
      destruct (IH Hm1 _ _ Hi) as [IHi IHm]. split; [ lia | exact IHm ].
Qed.

(** The months of a schedule lie between the first month and the month
    reached by one shift less than there are events. *)
Lemma schedule_months (d d' : datetime) (evs : list Event) :
  schedule k d evs d' -> 1 <= month d <= 12 ->
  Forall (fun e =>
            month_index d <= month_index (scheduled_at e)
              <= month_index d + k * (Z.of_nat (length evs) - 1) /\
            1 <= month (scheduled_at e) <= 12) evs.
Proof.
  intros Hs Hm. rewrite Forall_forall. intros e He.
  destruct (In_nth_error _ _ He) as [i Hi].
  destruct (schedule_nth_month_index _ _ _ Hs Hm _ _ Hi) as [Hmi Hme].
  assert (Hlt : (i < length evs)%nat)
    by (apply nth_error_Some; congruence).
  split; [ nia | exact Hme ].
Qed.

(** Along a schedule the time of day is kept, and the day of the month
    only falls, and not below 28. *)
Lemma schedule_days (d d' : datetime) (evs : list Event) :
  schedule k d evs d' -> 1 <= month d <= 12 ->
  (time_of_day d' = time_of_day d /\
   Z.min 28 (day d) <= day d' <= day d) /\
  Forall (fun e =>
            time_of_day (scheduled_at e) = time_of_day d /\
            Z.min 28 (day d) <= day (scheduled_at e) <= day d) evs.
Proof.
  induction 1 as [ | d0 d1 d2 e0 evs He Hr Hs IH ]; intros Hm.
  - split; [ split; lia | constructor ].
  - destruct (relativedelta_add_spec 0 k d0 d1 Hm ltac:(lia) Hr)
      as (_ & Hm1 & _ & Hd1 & Ht1).
    pose proof (monthrange_bounds (year d1) (month d1) Hm1) as Hmr.
    destruct (IH Hm1) as [[IHt IHd] IHall].
    split; [ split; lia | ].
    constructor.
    + rewrite He. split; lia.
    + eapply Forall_impl; [ | exact IHall ]. simpl.
      intros e [Het Hed]. split; lia.
Qed.

End ScheduleMonths.

(** ** More facts of the loops *)

Section LoopMonths.

Variables (uid rid : Z).
Variable update_relatp : Relationship.

Let step : Z := step_of (relatp_type update_relatp).

(** How far the events of the loop can lie: a pass starts at a month that
    is not past the month of the bound, and goes on for one shift less than
    there are items in the list. *)
Lemma while_loop_months (desired_list : list string) (yr_from_now : datetime) :
  1 <= month yr_from_now <= 12 ->
  forall fuel session start_date out,
    1 <= month start_date <= 12 ->
    while_loop uid rid update_relatp fuel desired_list yr_from_now
      session start_date = Done out ->
    exists evs,
      out = session ++ evs /\
      Forall (fun e =>
                month_index start_date <= month_index (scheduled_at e)
                  <= month_index yr_from_now
                     + step * (Z.of_nat (length desired_list) - 1)) evs.
Proof.
  intros Hyr.
  pose proof (step_range update_relatp) as Hstep. fold step in Hstep.
  assert (Hk : 1 <= step <= 12) by lia.
  induction fuel as [ | fuel IH ]; intros session start_date out Hm H;
    cbn [while_loop] in H; [ discriminate | ].
  destruct (dt_ltb start_date yr_from_now) eqn:Hg.
  - destruct (for_desired_list uid rid update_relatp desired_list
                session start_date) as [ [session1 start1] | ] eqn:Hf;
      [ | discriminate ].
    destruct (for_desired_list_spec _ _ _ _ _ _ _ _ Hf)
      as (evs1 & -> & Hs1 & Hm1 & _).
    fold step in Hs1.
    destruct (schedule_month_index _ _ _ _ Hs1 Hm) as [Hi1 Hmo1].
    fold step in Hi1.
    pose proof (schedule_months _ Hk _ _ _ Hs1 Hm) as Hall1.
    pose proof (dt_lt_month_index _ _ Hm Hyr Hg) as Hle.
    assert (Hlen : length evs1 = length desired_list)
      by (rewrite <- Hm1; now rewrite length_map).
    rewrite Hlen in Hall1.
    destruct (IH _ _ _ Hmo1 H) as (evs2 & -> & Hall2).
    exists (evs1 ++ evs2). rewrite app_assoc. split; [ reflexivity | ].
    apply Forall_app. split.
    + eapply Forall_impl; [ | exact Hall1 ]. simpl. intros e [He _]. nia.
    + eapply Forall_impl; [ | exact Hall2 ]. simpl. intros e He. nia.
  - injection H as <-. exists []. rewrite app_nil_r. split; constructor.
Qed.

(** The number of events added by the loop when no day is cut: the date
    and the bound agree on the day and on the time of day, so that the
    condition compares months only, and every pass uses as many months as
    there are items in the list, times the step. *)
Lemma while_loop_count (desired_list : list string) (yr_from_now : datetime) :
  desired_list <> [] ->
  1 <= month yr_from_now <= 12 ->
  forall fuel session start_date out,
    1 <= month start_date <= 12 ->
    1 <= day start_date <= 28 ->
    day yr_from_now = day start_date ->
    time_of_day yr_from_now = time_of_day start_date ->
    while_loop uid rid update_relatp fuel desired_list yr_from_now
      session start_date = Done out ->
    Z.of_nat (length out) - Z.of_nat (length session) =
    Z.of_nat (length desired_list)
    * Z.max 0 ((month_index yr_from_now - month_index start_date
                + Z.of_nat (length desired_list) * step - 1)
               / (Z.of_nat (length desired_list) * step)).
Proof.
  intros Hne Hyr.
  pose proof (step_range update_relatp) as Hstep. fold step in Hstep.
  assert (Hk : 1 <= step <= 12) by lia.
  assert (Hn : 1 <= Z.of_nat (length desired_list))
    by (destruct desired_list; [ congruence | simpl length; lia ]).
  set (q := Z.of_nat (length desired_list) * step).
  assert (Hq : 0 < q) by (subst q; nia).
  induction fuel as [ | fuel IH ];
    intros session start_date out Hm Hd Hdy Hty H;
    cbn [while_loop] in H; [ discriminate | ].
  destruct (dt_ltb start_date yr_from_now) eqn:Hg.
  - assert (Hlt : month_index start_date < month_index yr_from_now).
    { apply dt_ltb_spec in Hg. unfold month_index. lia. }
    destruct (for_desired_list uid rid update_relatp desired_list
                session start_date) as [ [session1 start1] | ] eqn:Hf;
      [ | discriminate ].
    destruct (for_desired_list_spec _ _ _ _ _ _ _ _ Hf)
      as (evs1 & -> & Hs1 & Hm1 & _).
    fold step in Hs1.
    destruct (schedule_month_index _ _ _ _ Hs1 Hm) as [Hi1 Hmo1].
    fold step in Hi1.
    destruct (schedule_days _ Hk _ _ _ Hs1 Hm) as [[Ht1 Hd1] _].
    assert (Hlen : length evs1 = length desired_list)
      by (rewrite <- Hm1; now rewrite length_map).
    rewrite Hlen in Hi1.
    specialize (IH _ _ _ Hmo1 ltac:(lia) ltac:(lia) ltac:(lia) H).
    rewrite length_app, Hlen in IH.
    set (R := month_index yr_from_now - month_index start_date) in *.
    replace (month_index yr_from_now - month_index start1 + q - 1)
      with (R - 1) in IH by (subst R q; lia).
    replace (R + q - 1) with ((R - 1) + 1 * q) by lia.
    rewrite Z.div_add by lia.
    assert (H0 : 0 <= (R - 1) / q) by (apply Z.div_pos; lia).
    rewrite Z.max_r in IH by lia. rewrite Z.max_r by lia. nia.
  - injection H as <-.
    assert (Hge : month_index yr_from_now <= month_index start_date).
    { destruct (Z.lt_ge_cases (month_index start_date)
                  (month_index yr_from_now)) as [Hlt | Hge]; [ | lia ].
      pose proof (month_index_lt _ _ Hm Hyr Hlt) as Hc.
      unfold dt_lt in Hc. congruence. }
    assert (Hdiv : (month_index yr_from_now - month_index start_date + q - 1)
                   / q < 1)
      by (apply Z.div_lt_upper_bound; lia).
    rewrite Z.max_l by lia. lia.
Qed.

End LoopMonths.

(** The loops look at the category only through the step. *)
Lemma for_desired_list_same_step (uid rid : Z) (r r' : Relationship)
    (desired_list : list string) :
  step_of (relatp_type r) = step_of (relatp_type r') ->
  forall session start_date,
    for_desired_list uid rid r desired_list session start_date =
    for_desired_list uid rid r' desired_list session start_date.
Proof.
  intros Hstep.
  induction desired_list as [ | item rest IH ]; intros session start_date;
    [ reflexivity | ].
  rewrite !for_desired_list_cons, Hstep. unfold bind.
  destruct (replace_months (step_of (relatp_type r')) start_date);
    [ apply IH | reflexivity ].
Qed.

Lemma while_loop_same_step (uid rid : Z) (r r' : Relationship)
    (desired_list : list string) (yr_from_now : datetime) :
  step_of (relatp_type r) = step_of (relatp_type r') ->
  forall fuel session start_date,
    while_loop uid rid r fuel desired_list yr_from_now session start_date =
    while_loop uid rid r' fuel desired_list yr_from_now session start_date.
Proof.
  intros Hstep.
  induction fuel as [ | fuel IH ]; intros session start_date;
    cbn [while_loop]; [ reflexivity | ].
  rewrite (for_desired_list_same_step _ _ _ _ _ Hstep).
  destruct (dt_ltb start_date yr_from_now); [ | reflexivity ].
  destruct (for_desired_list uid rid r' desired_list session start_date)
    as [ [session1 start1] | ]; [ apply IH | reflexivity ].
Qed.

(** ** More facts of the handler *)

Lemma concat_repeat_nil (A : Type) (n : nat) :
  concat (repeat (@nil A) n) = [].
Proof. induction n as [ | n IH ]; simpl; auto. Qed.

Lemma length_concat_repeat (A : Type) (l : list A) (n : nat) :
  length (concat (repeat l n)) = (n * length l)%nat.
Proof.
  induction n as [ | n IH ]; simpl; [ reflexivity | ].
  rewrite length_app, IH. reflexivity.
Qed.

(** No event of a schedule is dated before its first date. *)
Lemma schedule_not_before_first (k : Z) (d d' : datetime)
    (evs : list Event) :
  1 <= k <= 12 -> schedule k d evs d' -> 1 <= month d <= 12 ->
  Forall (fun e => dt_ltb (scheduled_at e) d = false) evs.
Proof.
  intros Hk Hs Hm.
  destruct (schedule_sorted _ Hk _ _ _ Hs Hm) as [_ Hlo].
  rewrite Forall_forall in *. intros e He.
  destruct (dt_ltb (scheduled_at e) d) eqn:E; [ exfalso | reflexivity ].
  destruct (Hlo (scheduled_at e) (in_map _ _ _ He)) as [Heq | Hlt].
  - rewrite Heq in E. exact (dt_lt_irrefl _ E).
  - exact (dt_lt_irrefl _ (dt_lt_trans _ _ _ Hlt E)).
Qed.

Section HandlerCounts.

Variables (uid rid : Z).
Variable update_relatp : Relationship.

Let step : Z := step_of (relatp_type update_relatp).
Let created : datetime := created_date update_relatp.
Let run (fuel : nat) (desired_list : list string) : outcome :=
  method_specification_success uid rid update_relatp fuel desired_list.

(** A run commits only when the list has an item, and then commits at least
    one whole pass. *)
Lemma run_done_passes (desired_list : list string) (fuel : nat)
    (evs : list Event) :
  valid_datetime created ->
  run fuel desired_list = Done evs ->
  desired_list <> [] /\
  exists passes,
    map rcmdn evs = concat (repeat desired_list (S passes)).
Proof.
  intros Hv Hr.
  destruct (run_spec uid rid update_relatp _ _ _ Hv Hr)
    as (start_date & yr & last & passes & H1 & H2 & Hs & Hl & Hm & _).
  destruct (first_date_and_bound update_relatp _ _ Hv H1 H2)
    as (_ & _ & _ & _ & Hg).
  assert (Hevs : evs <> []).
  { intros ->. inversion Hs; subst. congruence. }
  split.
  - intros ->. rewrite concat_repeat_nil in Hm.
    apply map_eq_nil in Hm. contradiction.
  - destruct passes as [ | passes ].
    + simpl in Hm. apply map_eq_nil in Hm. contradiction.
    + exists passes. exact Hm.
Qed.

(** The months of the committed events. *)
Lemma run_months (desired_list : list string) (fuel : nat)
    (evs : list Event) :
  valid_datetime created ->
  run fuel desired_list = Done evs ->
  Forall (fun e =>
            month_index created + 1 <= month_index (scheduled_at e)
              <= month_index created + 13
                 + step * (Z.of_nat (length desired_list) - 1) /\
            1 <= month (scheduled_at e) <= 12) evs.
Proof.
  intros Hv Hr.
  destruct (run_spec uid rid update_relatp _ _ _ Hv Hr)
    as (start_date & yr & last & passes & H1 & H2 & Hs & _).
  destruct (first_date_and_bound update_relatp _ _ Hv H1 H2)
    as (Hv1 & Hv2 & Hi1 & Hi2 & _).
  rewrite valid_datetime_spec in Hv1, Hv2.
  destruct Hv1 as (_ & Hmo1 & _). destruct Hv2 as (_ & Hmo2 & _).
  pose proof (step_range update_relatp) as Hstep.
  assert (Hk : 1 <= step_of (relatp_type update_relatp) <= 12) by lia.
  pose proof (schedule_months _ Hk _ _ _ Hs Hmo1) as Hvalid.
  subst run created. unfold method_specification_success in Hr.
  rewrite H1, H2 in Hr.
  destruct (while_loop_months _ _ _ _ _ Hmo2 _ _ _ _ Hmo1 Hr)
    as (evs' & Heq & Hall).
  simpl in Heq. subst evs'.
  rewrite Forall_forall in *. intros e He.
  specialize (Hall e He). specialize (Hvalid e He). simpl in Hall, Hvalid.
  fold step in Hall. split; [ lia | tauto ].
Qed.

(** The number of committed events when the creation day is at most the
    28th, so that no month cuts it. *)
Lemma run_count (desired_list : list string) (fuel : nat)
    (evs : list Event) :
  valid_datetime created -> day created <= 28 ->
  run fuel desired_list = Done evs ->
  Z.of_nat (length evs) =
  Z.of_nat (length desired_list)
  * ((12 + Z.of_nat (length desired_list) * step - 1)
     / (Z.of_nat (length desired_list) * step)).
Proof.
  intros Hv Hd Hr.
  destruct (run_done_passes _ _ _ Hv Hr) as [Hne _].
  destruct (run_spec uid rid update_relatp _ _ _ Hv Hr)
    as (start_date & yr & last & passes & H1 & H2 & _).
  destruct (first_date_and_bound update_relatp _ _ Hv H1 H2)
    as (Hv1 & Hv2 & Hi1 & Hi2 & _).
  pose proof Hv as Hc. rewrite valid_datetime_spec in Hc, Hv1, Hv2.
  destruct Hc as (_ & Hmo0 & Hd0 & _).
  destruct Hv1 as (_ & Hmo1 & _). destruct Hv2 as (_ & Hmo2 & _).
  destruct (relativedelta_add_spec 0 1 _ _ Hmo0 ltac:(lia) H1)
    as (_ & _ & _ & Hd1 & Ht1).
  destruct (relativedelta_add_spec 1 0 _ _ Hmo1 ltac:(lia) H2)
    as (_ & _ & _ & Hd2 & Ht2).
  pose proof (monthrange_bounds (year start_date) (month start_date) Hmo1)
    as Hmr1.
  pose proof (monthrange_bounds (year yr) (month yr) Hmo2) as Hmr2.
  pose proof (step_range update_relatp) as Hstep. fold step in Hstep.
  assert (Hn : 1 <= Z.of_nat (length desired_list))
    by (destruct desired_list; [ congruence | simpl length; lia ]).
  subst run created. unfold method_specification_success in Hr.
  rewrite H1, H2 in Hr.
  pose proof (while_loop_count uid rid update_relatp desired_list yr Hne Hmo2
                _ _ _ _ Hmo1 ltac:(lia) ltac:(lia) ltac:(lia) Hr) as Hcount.
  simpl length in Hcount. fold step in Hcount.
  replace (month_index yr - month_index start_date) with 12 in Hcount by lia.
  assert (Hpos : 0 <= (12 + Z.of_nat (length desired_list) * step - 1)
                      / (Z.of_nat (length desired_list) * step))
    by (apply Z.div_pos; nia).
  rewrite Z.max_r in Hcount by exact Hpos. lia.
Qed.

End HandlerCounts.

(** ** Further properties of the handler *)

(** X1: a run that reaches the commit was given a list with a method in it;
    every committed event carries a method of the list and the user and
    relationship of the request; every method of the list is on an event;
    and the events are a whole number of passes over the list, one at
    least. *)
Theorem X1_selected_methods_and_no_other (uid rid : Z) (r : Relationship)
    (desired_list : list string) (fuel : nat) (evs : list Event) :
  valid_datetime (created_date r) ->
  method_specification_success uid rid r fuel desired_list = Done evs ->
  desired_list <> [] /\
  (forall e, In e evs ->
             In (rcmdn e) desired_list /\
             user_id e = uid /\ relatp_id e = rid) /\
  (forall m, In m desired_list -> exists e, In e evs /\ rcmdn e = m) /\
  (exists passes,
      (1 <= passes)%nat /\
      length evs = (passes * length desired_list)%nat).
Proof.
  intros Hv Hr.
  destruct (run_done_passes uid rid r _ _ _ Hv Hr) as (Hne & passes & Hm).
  destruct (run_spec uid rid r _ _ _ Hv Hr)
    as (_ & _ & _ & _ & _ & _ & _ & _ & _ & Hids & _).
  split; [ exact Hne | ]. split; [ | split ].
  - intros e He. split.
    + assert (Hin : In (rcmdn e) (map rcmdn evs)) by now apply in_map.
      rewrite Hm in Hin. apply in_concat in Hin.
      destruct Hin as (l & Hl & Hin). apply repeat_spec in Hl. now subst l.
    + rewrite Forall_forall in Hids. now apply Hids.
  - intros m Hin.
    assert (Hin' : In m (map rcmdn evs)).
    { rewrite Hm. simpl. apply in_or_app. now left. }
    apply in_map_iff in Hin'. destruct Hin' as (e & He & Hine).
    exists e. split; assumption.
  - exists (S passes). split; [ lia | ].
    rewrite <- (length_map rcmdn), Hm. apply length_concat_repeat.
Qed.

Lemma X1_selected_methods_and_no_other_witness :
  valid_datetime (date 2024 1 15) /\
  generate 14 "fr" (date 2024 1 15) ["call"; "email"]
  = Done friend_call_email_events /\
  ["call"; "email"] <> [] /\
  (forall e, In e friend_call_email_events ->
             In (rcmdn e) ["call"; "email"] /\
             user_id e = 1 /\ relatp_id e = 7) /\
  (forall m, In m ["call"; "email"] ->
             exists e, In e friend_call_email_events /\ rcmdn e = m) /\
  (exists passes,
      (1 <= passes)%nat /\
      length friend_call_email_events
      = (passes * length ["call"; "email"])%nat).
Proof.
  assert (Hv : valid_datetime (date 2024 1 15)) by reflexivity.
  assert (Hr : generate 14 "fr" (date 2024 1 15) ["call"; "email"]
               = Done friend_call_email_events) by (vm_compute; reflexivity).
  refine (conj Hv (conj Hr _)).
  exact (X1_selected_methods_and_no_other 1 7 (contact "fr" (date 2024 1 15))
           ["call"; "email"] 14 friend_call_email_events Hv Hr).
Defined.

(** X2: a committed schedule does not stop short of the year: the events
    times the step make twelve months at least, and the last event lies
    at most one step before the month of the bound, thirteen months after
    the creation. *)
Theorem X2_schedule_spans_the_year (uid rid : Z) (r : Relationship)
    (desired_list : list string) (fuel : nat) (evs : list Event) :
  valid_datetime (created_date r) ->
  method_specification_success uid rid r fuel desired_list = Done evs ->
  12 <= step_of (relatp_type r) * Z.of_nat (length evs) /\
  forall e,
    nth_error evs (length evs - 1) = Some e ->
    month_index (created_date r) + 13
      <= month_index (scheduled_at e) + step_of (relatp_type r).
Proof.
  intros Hv Hr.
  destruct (run_spec uid rid r _ _ _ Hv Hr)
    as (start_date & yr & last & passes & H1 & H2 & Hs & Hl & _).
  destruct (first_date_and_bound r _ _ Hv H1 H2)
    as (Hv1 & Hv2 & Hi1 & Hi2 & _).
  rewrite valid_datetime_spec in Hv1, Hv2.
  destruct Hv1 as (_ & Hmo1 & _). destruct Hv2 as (_ & Hmo2 & _).
  pose proof (step_range r) as Hstep.
  assert (Hk : 1 <= step_of (relatp_type r) <= 12) by lia.
  destruct (schedule_month_index _ _ _ _ Hs Hmo1) as [Hil Hmol].
  assert (Hge : month_index yr <= month_index last).
  { destruct (Z.lt_ge_cases (month_index last) (month_index yr))
      as [Hlt | Hge]; [ | lia ].
    pose proof (month_index_lt _ _ Hmol Hmo2 Hlt) as Hc.
    unfold dt_lt in Hc. congruence. }
  split; [ lia | ].
  intros e He.
  destruct (schedule_nth_month_index _ Hk _ _ _ Hs Hmo1 _ _ He) as [Hie _].
  assert (Hpos : (0 < length evs)%nat).
  { destruct evs; [ discriminate | simpl; lia ]. }
  nia.
Qed.

Lemma X2_schedule_spans_the_year_witness :
  valid_datetime (date 2024 1 15) /\
  generate 14 "prf" (date 2024 1 15) ["call"; "email"]
  = Done professional_call_email_events /\
  12 <= step_of "prf" * Z.of_nat (length professional_call_email_events) /\
  forall e,
    nth_error professional_call_email_events
      (length professional_call_email_events - 1) = Some e ->
    month_index (date 2024 1 15) + 13
      <= month_index (scheduled_at e) + step_of "prf".
Proof.
  assert (Hv : valid_datetime (date 2024 1 15)) by reflexivity.
  assert (Hr : generate 14 "prf" (date 2024 1 15) ["call"; "email"]
               = Done professional_call_email_events)
    by (vm_compute; reflexivity).
  refine (conj Hv (conj Hr _)).
  exact (X2_schedule_spans_the_year 1 7 (contact "prf" (date 2024 1 15))
           ["call"; "email"] 14 professional_call_email_events Hv Hr).
Defined.

(** X3: when the contact was created on the 28th of a month or earlier, the
    number of committed events is the number of methods times the number of
    passes that cover twelve months, a pass covering as many months as there
    are methods times the step: with [k] methods and step [s], the events
    are [k] times the quotient of [12 + k * s - 1] by [k * s]. *)
Theorem X3_event_count_when_no_day_is_cut (uid rid : Z) (r : Relationship)
    (desired_list : list string) (fuel : nat) (evs : list Event) :
  valid_datetime (created_date r) ->
  day (created_date r) <= 28 ->
  method_specification_success uid rid r fuel desired_list = Done evs ->
  Z.of_nat (length evs) =
  Z.of_nat (length desired_list)
  * ((12 + Z.of_nat (length desired_list) * step_of (relatp_type r) - 1)
     / (Z.of_nat (length desired_list) * step_of (relatp_type r))).
Proof.
  intros Hv Hd Hr. now apply (run_count uid rid r desired_list fuel).
Qed.

Lemma X3_event_count_when_no_day_is_cut_witness :
  valid_datetime (date 2024 1 15) /\
  day (date 2024 1 15) <= 28 /\
  generate 14 "prf" (date 2024 1 15) ["call"; "email"]
  = Done professional_call_email_events /\
  Z.of_nat (length professional_call_email_events) =
  Z.of_nat (length ["call"; "email"])
  * ((12 + Z.of_nat (length ["call"; "email"]) * step_of "prf" - 1)
     / (Z.of_nat (length ["call"; "email"]) * step_of "prf")).
Proof.
  assert (Hv : valid_datetime (date 2024 1 15)) by reflexivity.
  assert (Hd : day (date 2024 1 15) <= 28) by (vm_compute; discriminate).
  assert (Hr : generate 14 "prf" (date 2024 1 15) ["call"; "email"]
               = Done professional_call_email_events)
    by (vm_compute; reflexivity).
  refine (conj Hv (conj Hd (conj Hr _))).
  exact (X3_event_count_when_no_day_is_cut 1 7
           (contact "prf" (date 2024 1 15)) ["call"; "email"] 14
           professional_call_email_events Hv Hd Hr).
Defined.

(** X4: every committed event keeps the time of day of the creation; its
    day of the month is the day of the creation or, when that is past the
    28th, a day from the 28th up to it; and along the output the day never
    goes up again: once a short month has cut it, it stays cut. *)
Theorem X4_day_of_month_only_falls (uid rid : Z) (r : Relationship)
    (desired_list : list string) (fuel : nat) (evs : list Event) :
  valid_datetime (created_date r) ->
  method_specification_success uid rid r fuel desired_list = Done evs ->
  Forall (fun e =>
            time_of_day (scheduled_at e) = time_of_day (created_date r) /\
            Z.min 28 (day (created_date r)) <= day (scheduled_at e)
              <= day (created_date r)) evs /\
  (forall i e e',
      nth_error evs i = Some e -> nth_error evs (S i) = Some e' ->
      day (scheduled_at e') <= day (scheduled_at e)).
Proof.
  intros Hv Hr.
  destruct (run_spec uid rid r _ _ _ Hv Hr)
    as (start_date & yr & last & passes & H1 & H2 & Hs & _).
  destruct (first_date_and_bound r _ _ Hv H1 H2) as (Hv1 & _).
  pose proof Hv as Hc. rewrite valid_datetime_spec in Hc, Hv1.
  destruct Hc as (_ & Hmo0 & _). destruct Hv1 as (_ & Hmo1 & _).
  destruct (relativedelta_add_spec 0 1 _ _ Hmo0 ltac:(lia) H1)
    as (_ & _ & _ & Hd1 & Ht1).
  pose proof (monthrange_bounds (year start_date) (month start_date) Hmo1)
    as Hmr1.
  pose proof (step_range r) as Hstep.
  assert (Hk : 1 <= step_of (relatp_type r) <= 12) by lia.
  destruct (schedule_days _ Hk _ _ _ Hs Hmo1) as [_ Hall].
  split.
  - eapply Forall_impl; [ | exact Hall ]. simpl. intros e [Het Hed].
    split; lia.
  - intros i e e' Hi Hi'.
    pose proof (schedule_consecutive _ _ _ _ Hs _ _ _ Hi Hi') as Hshift.
    destruct (schedule_nth_month_index _ Hk _ _ _ Hs Hmo1 _ _ Hi)
      as [_ Hme].
    destruct (relativedelta_add_spec 0 (step_of (relatp_type r)) _ _ Hme
                ltac:(lia) Hshift) as (_ & _ & _ & Hd & _).
    lia.
Qed.

Lemma X4_day_of_month_only_falls_witness :
  valid_datetime (date 2023 1 31) /\
  generate 14 "fr" (date 2023 1 31) ["call"] = Done jan31_events /\
  Forall (fun e =>
            time_of_day (scheduled_at e) = time_of_day (date 2023 1 31) /\
            Z.min 28 (day (date 2023 1 31)) <= day (scheduled_at e)
              <= day (date 2023 1 31)) jan31_events /\
  (forall i e e',
      nth_error jan31_events i = Some e ->
      nth_error jan31_events (S i) = Some e' ->
      day (scheduled_at e') <= day (scheduled_at e)).
Proof.
  assert (Hv : valid_datetime (date 2023 1 31)) by reflexivity.
  assert (Hr : generate 14 "fr" (date 2023 1 31) ["call"] = Done jan31_events)
    by (vm_compute; reflexivity).
  refine (conj Hv (conj Hr _)).
  exact (X4_day_of_month_only_falls 1 7 (contact "fr" (date 2023 1 31))
           ["call"] 14 jan31_events Hv Hr).
Defined.

(** X5: every committed event is dated strictly after the creation, in a
    month from the first after the creation on; and the months past the
    bound that the events can reach are limited by the list: no event lies
    later than the thirteenth month after the creation plus one step for
    each method but one. *)
Theorem X5_months_of_the_events (uid rid : Z) (r : Relationship)
    (desired_list : list string) (fuel : nat) (evs : list Event) :
  valid_datetime (created_date r) ->
  method_specification_success uid rid r fuel desired_list = Done evs ->
  Forall (fun e =>
            dt_lt (created_date r) (scheduled_at e) /\
            month_index (created_date r) + 1
              <= month_index (scheduled_at e)
              <= month_index (created_date r) + 13
                 + step_of (relatp_type r)
                   * (Z.of_nat (length desired_list) - 1)) evs.
Proof.
  intros Hv Hr.
  pose proof (run_months uid rid r _ _ _ Hv Hr) as Hall.
  pose proof Hv as Hc. rewrite valid_datetime_spec in Hc.
  destruct Hc as (_ & Hmo0 & _).
  eapply Forall_impl; [ | exact Hall ]. simpl. intros e [Hmi Hme].
  split; [ | exact Hmi ].
  apply month_index_lt; try assumption. lia.
Qed.

Lemma X5_months_of_the_events_witness :
  valid_datetime (date 2024 1 15) /\
  generate 14 "prf" (date 2024 1 15) ["call"; "email"]
  = Done professional_call_email_events /\
  Forall (fun e =>
            dt_lt (date 2024 1 15) (scheduled_at e) /\
            month_index (date 2024 1 15) + 1
              <= month_index (scheduled_at e)
              <= month_index (date 2024 1 15) + 13
                 + step_of "prf" * (Z.of_nat (length ["call"; "email"]) - 1))
         professional_call_email_events.
Proof.
  assert (Hv : valid_datetime (date 2024 1 15)) by reflexivity.
  assert (Hr : generate 14 "prf" (date 2024 1 15) ["call"; "email"]
               = Done professional_call_email_events)
    by (vm_compute; reflexivity).
  refine (conj Hv (conj Hr _)).
  exact (X5_months_of_the_events 1 7 (contact "prf" (date 2024 1 15))
           ["call"; "email"] 14 professional_call_email_events Hv Hr).
Defined.

(** X6: with exactly one method every committed event lies in the window
    from one month after the creation to thirteen months after it, the
    latter excluded. *)
Theorem X6_one_method_stays_in_the_window (uid rid : Z) (r : Relationship)
    (method : string) (fuel : nat) (evs : list Event) :
  valid_datetime (created_date r) ->
  method_specification_success uid rid r fuel [method] = Done evs ->
  Forall (fun e => in_window (created_date r) (scheduled_at e) = true) evs.
Proof.
  intros Hv Hr. now apply (single_method_in_window uid rid r method fuel).
Qed.

Lemma X6_one_method_stays_in_the_window_witness :
  valid_datetime (date 2023 1 31) /\
  generate 14 "fr" (date 2023 1 31) ["call"] = Done jan31_events /\
  Forall (fun e => in_window (date 2023 1 31) (scheduled_at e) = true)
         jan31_events.
Proof.
  assert (Hv : valid_datetime (date 2023 1 31)) by reflexivity.
  assert (Hr : generate 14 "fr" (date 2023 1 31) ["call"] = Done jan31_events)
    by (vm_compute; reflexivity).
  refine (conj Hv (conj Hr _)).
  exact (X6_one_method_stays_in_the_window 1 7
           (contact "fr" (date 2023 1 31)) "call" 14 jan31_events Hv Hr).
Defined.

(** X7: when the contact was created on the 28th of a month or earlier and
    the number of methods times the step divides twelve, the passes end
    with the year and every committed event lies in the window. *)
Theorem X7_fits_the_year_when_passes_divide (uid rid : Z) (r : Relationship)
    (desired_list : list string) (fuel : nat) (evs : list Event) :
  valid_datetime (created_date r) ->
  day (created_date r) <= 28 ->
  12 mod (Z.of_nat (length desired_list) * step_of (relatp_type r)) = 0 ->
  method_specification_success uid rid r fuel desired_list = Done evs ->
  step_of (relatp_type r) * Z.of_nat (length evs) = 12 /\
  Forall (fun e => in_window (created_date r) (scheduled_at e) = true) evs.
Proof.
  intros Hv Hd Hdiv Hr.
  pose proof (run_count uid rid r _ _ _ Hv Hd Hr) as Hcount.
  destruct (run_done_passes uid rid r _ _ _ Hv Hr) as [Hne _].
  pose proof (step_range r) as Hstep.
  assert (Hk : 1 <= step_of (relatp_type r) <= 12) by lia.
  assert (Hn : 1 <= Z.of_nat (length desired_list))
    by (destruct desired_list; [ congruence | simpl length; lia ]).
  set (q := Z.of_nat (length desired_list) * step_of (relatp_type r)) in *.
  assert (Hq : 0 < q) by (subst q; nia).
  pose proof (Z.div_mod 12 q ltac:(lia)) as Hdm. rewrite Hdiv in Hdm.
  assert (Hquot : (12 + q - 1) / q = 12 / q).
  { symmetry. apply (Z.div_unique_pos _ _ _ (q - 1)); lia. }
  rewrite Hquot in Hcount.
  assert (Htwelve : step_of (relatp_type r) * Z.of_nat (length evs) = 12).
  { rewrite Hcount. subst q. nia. }
  split; [ exact Htwelve | ].
  destruct (run_spec uid rid r _ _ _ Hv Hr)
    as (start_date & yr & last & passes & H1 & H2 & Hs & _).
  destruct (first_date_and_bound r _ _ Hv H1 H2) as (Hv1 & _ & Hi1 & _).
  pose proof Hv as Hc. rewrite valid_datetime_spec in Hc, Hv1.
  destruct Hc as (_ & Hmo0 & _). destruct Hv1 as (_ & Hmo1 & _).
  destruct (bound_not_after_thirteen_months _ _ _ Hv H1 H2) as (hi & Hh & _).
  destruct (relativedelta_add_spec 1 1 _ _ Hmo0 ltac:(lia) Hh)
    as (Hih & Hmoh & _).
  pose proof (schedule_months _ Hk _ _ _ Hs Hmo1) as Hmonths.
  pose proof (schedule_not_before_first _ _ _ _ Hk Hs Hmo1) as Hlo.
  rewrite Forall_forall in *. intros e He.
  specialize (Hmonths e He). specialize (Hlo e He). simpl in Hmonths, Hlo.
  destruct Hmonths as [Hmi Hme].
  unfold in_window. rewrite H1, Hh, Hlo. simpl.
  apply month_index_lt; try assumption. nia.
Qed.

Lemma X7_fits_the_year_when_passes_divide_witness :
  valid_datetime (date 2024 1 15) /\
  day (date 2024 1 15) <= 28 /\
  12 mod (Z.of_nat (length ["call"; "email"]) * step_of "fr") = 0 /\
  generate 14 "fr" (date 2024 1 15) ["call"; "email"]
  = Done friend_call_email_events /\
  step_of "fr" * Z.of_nat (length friend_call_email_events) = 12 /\
  Forall (fun e => in_window (date 2024 1 15) (scheduled_at e) = true)
         friend_call_email_events.
Proof.
  assert (Hv : valid_datetime (date 2024 1 15)) by reflexivity.
  assert (Hd : day (date 2024 1 15) <= 28) by (vm_compute; discriminate).
  assert (Hdiv : 12 mod (Z.of_nat (length ["call"; "email"]) * step_of "fr")
                 = 0) by reflexivity.
  assert (Hr : generate 14 "fr" (date 2024 1 15) ["call"; "email"]
               = Done friend_call_email_events) by (vm_compute; reflexivity).
  refine (conj Hv (conj Hd (conj Hdiv (conj Hr _)))).
  exact (X7_fits_the_year_when_passes_divide 1 7
           (contact "fr" (date 2024 1 15)) ["call"; "email"] 14
           friend_call_email_events Hv Hd Hdiv Hr).
Defined.

(** X8: when the contact was created on the 28th of a month or earlier and
    the number of methods times the step does not divide twelve, the last
    pass runs past the year: the last committed event is not dated before
    the end of the window, thirteen months after the creation, and so lies
    outside the window, on its late side. *)
Theorem X8_overruns_the_year_when_passes_do_not_divide (uid rid : Z)
    (r : Relationship) (desired_list : list string) (fuel : nat)
    (evs : list Event) :
  valid_datetime (created_date r) ->
  day (created_date r) <= 28 ->
  12 mod (Z.of_nat (length desired_list) * step_of (relatp_type r)) <> 0 ->
  method_specification_success uid rid r fuel desired_list = Done evs ->
  exists e hi,
    nth_error evs (length evs - 1) = Some e /\
    relativedelta_add 1 1 (created_date r) = Some hi /\
    dt_ltb (scheduled_at e) hi = false /\
    in_window (created_date r) (scheduled_at e) = false.
Proof.
  intros Hv Hd Hdiv Hr.
  pose proof (run_count uid rid r _ _ _ Hv Hd Hr) as Hcount.
  destruct (run_done_passes uid rid r _ _ _ Hv Hr) as [Hne _].
  assert (Hn : 1 <= Z.of_nat (length desired_list))
    by (destruct desired_list; [ congruence | simpl length; lia ]).
  assert (Hk : 1 <= step_of (relatp_type r) <= 12)
    by (pose proof (step_range r); lia).
  set (q := Z.of_nat (length desired_list) * step_of (relatp_type r)) in *.
  assert (Hq : 0 < q) by (subst q; nia).
  pose proof (Z.div_mod 12 q ltac:(lia)) as Hdm.
  pose proof (Z.mod_pos_bound 12 q Hq) as Hmod.
  assert (Hquot : (12 + q - 1) / q = 12 / q + 1).
  { symmetry. apply (Z.div_unique_pos _ _ _ (12 mod q - 1)); lia. }
  rewrite Hquot in Hcount.
  assert (Hover : 12 + step_of (relatp_type r)
                  <= step_of (relatp_type r) * Z.of_nat (length evs)).
  { rewrite Hcount. subst q.
    set (t := 12 / (Z.of_nat (length desired_list) * step_of (relatp_type r)))
      in *.
    set (p := Z.of_nat (length desired_list) * t).
    destruct (step_of_cases (relatp_type r)) as [E | E]; rewrite E in *;
      subst p; nia. }
  destruct (run_spec uid rid r _ _ _ Hv Hr)
    as (start_date & yr & last & passes & H1 & H2 & Hs & _).
  destruct (first_date_and_bound r _ _ Hv H1 H2) as (Hv1 & _ & Hi1 & _).
  pose proof Hv as Hc. rewrite valid_datetime_spec in Hc, Hv1.
  destruct Hc as (_ & Hmo0 & Hd0 & _). destruct Hv1 as (_ & Hmo1 & _).
  destruct (bound_not_after_thirteen_months _ _ _ Hv H1 H2) as (hi & Hh & _).
  destruct (relativedelta_add_spec 1 1 _ _ Hmo0 ltac:(lia) Hh)
    as (Hih & Hmoh & _ & Hdh & Hth).
  destruct (relativedelta_add_spec 0 1 _ _ Hmo0 ltac:(lia) H1)
    as (_ & _ & _ & Hd1 & Ht1).
  pose proof (monthrange_bounds (year hi) (month hi) Hmoh) as Hmrh.
  pose proof (monthrange_bounds (year start_date) (month start_date) Hmo1)
    as Hmr1.
  destruct (nth_error evs (length evs - 1)) as [ e | ] eqn:He.
  - exists e, hi. split; [ reflexivity | ]. split; [ exact Hh | ].
    destruct (schedule_nth_month_index _ Hk _ _ _ Hs Hmo1 _ _ He)
      as [Hie Hme].
    destruct (schedule_days _ Hk _ _ _ Hs Hmo1) as [_ Hdays].
    rewrite Forall_forall in Hdays.
    destruct (Hdays e (nth_error_In _ _ He)) as [Hte Hde].
    assert (Hpos : (0 < length evs)%nat)
      by (destruct evs; [ discriminate | simpl; lia ]).
    assert (Hmi : month_index hi <= month_index (scheduled_at e)) by nia.
    assert (Hlate : dt_ltb (scheduled_at e) hi = false).
    { destruct (dt_ltb (scheduled_at e) hi) eqn:E; [ exfalso | reflexivity ].
      apply dt_ltb_spec in E. unfold month_index in Hmi. lia. }
    split; [ exact Hlate | ].
    unfold in_window. rewrite H1, Hh, Hlate. apply andb_false_r.
  - exfalso. apply nth_error_None in He.
    assert (Hpos : 0 < Z.of_nat (length evs)) by nia. lia.
Qed.

Lemma X8_overruns_the_year_when_passes_do_not_divide_witness :
  valid_datetime (date 2024 1 15) /\
  day (date 2024 1 15) <= 28 /\
  12 mod (Z.of_nat (length ["call"; "email"]) * step_of "prf") <> 0 /\
  generate 14 "prf" (date 2024 1 15) ["call"; "email"]
  = Done professional_call_email_events /\
  exists e hi,
    nth_error professional_call_email_events
      (length professional_call_email_events - 1) = Some e /\
    relativedelta_add 1 1 (date 2024 1 15) = Some hi /\
    dt_ltb (scheduled_at e) hi = false /\
    in_window (date 2024 1 15) (scheduled_at e) = false.
Proof.
  assert (Hv : valid_datetime (date 2024 1 15)) by reflexivity.
  assert (Hd : day (date 2024 1 15) <= 28) by (vm_compute; discriminate).
  assert (Hdiv : 12 mod (Z.of_nat (length ["call"; "email"]) * step_of "prf")
                 <> 0) by (vm_compute; discriminate).
  assert (Hr : generate 14 "prf" (date 2024 1 15) ["call"; "email"]
               = Done professional_call_email_events)
    by (vm_compute; reflexivity).
  refine (conj Hv (conj Hd (conj Hdiv (conj Hr _)))).
  exact (X8_overruns_the_year_when_passes_do_not_divide 1 7
           (contact "prf" (date 2024 1 15)) ["call"; "email"] 14
           professional_call_email_events Hv Hd Hdiv Hr).
Defined.

(** X9: the friend code and the family code are scheduled alike: two rows
    with the same creation date, each with one of the two codes, give the
    same outcome, fuel for fuel, whatever else the rows hold. *)
Theorem X9_friend_and_family_alike (uid rid : Z) (r r' : Relationship)
    (desired_list : list string) (fuel : nat) :
  created_date r = created_date r' ->
  relatp_type r = "fr" \/ relatp_type r = "fam" ->
  relatp_type r' = "fr" \/ relatp_type r' = "fam" ->
  method_specification_success uid rid r fuel desired_list
  = method_specification_success uid rid r' fuel desired_list.
Proof.
  intros Hc Hr Hr'.
  assert (Hstep : step_of (relatp_type r) = step_of (relatp_type r')).
  { destruct Hr as [-> | ->], Hr' as [-> | ->]; reflexivity. }
  unfold method_specification_success. rewrite Hc.
  destruct (replace_months 1 (created_date r')) as [ start_date | ];
    [ | reflexivity ].
  destruct (replace_years 1 start_date) as [ yr_from_now | ];
    [ | reflexivity ].
  now apply while_loop_same_step.
Qed.

Lemma X9_friend_and_family_alike_witness :
  created_date (contact "fr" (date 2023 7 31))
  = created_date (contact "fam" (date 2023 7 31)) /\
  (relatp_type (contact "fr" (date 2023 7 31)) = "fr" \/
   relatp_type (contact "fr" (date 2023 7 31)) = "fam") /\
  (relatp_type (contact "fam" (date 2023 7 31)) = "fr" \/
   relatp_type (contact "fam" (date 2023 7 31)) = "fam") /\
  generate 14 "fr" (date 2023 7 31) ["call"; "email"]
  = generate 14 "fam" (date 2023 7 31) ["call"; "email"].
Proof.
  assert (Hc : created_date (contact "fr" (date 2023 7 31))
               = created_date (contact "fam" (date 2023 7 31)))
    by reflexivity.
  assert (H1 : relatp_type (contact "fr" (date 2023 7 31)) = "fr" \/
               relatp_type (contact "fr" (date 2023 7 31)) = "fam")
    by (left; reflexivity).
  assert (H2 : relatp_type (contact "fam" (date 2023 7 31)) = "fr" \/
               relatp_type (contact "fam" (date 2023 7 31)) = "fam")
    by (right; reflexivity).
  refine (conj Hc (conj H1 (conj H2 _))).
  exact (X9_friend_and_family_alike 1 7 (contact "fr" (date 2023 7 31))
           (contact "fam" (date 2023 7 31)) ["call"; "email"] 14 Hc H1 H2).
Defined.

(** X10: the code that [contact_added] derives from the submitted kind is
    one of the three codes, whatever was submitted; it is the friend code
    for the kind friend only and the family code for the kind family only;
    so a contact with that code is scheduled with the step of one month
    exactly when it was submitted as friend or family, and with the step of
    four months in every other case, an absent or misspelt kind included. *)
Theorem X10_stored_code_and_step (relatp : option string) :
  let code := contact_added_relatp_type relatp in
  (code = "fr" \/ code = "fam" \/ code = "prf") /\
  (code = "fr" <-> relatp = Some "friend") /\
  (code = "fam" <-> relatp = Some "family") /\
  (step_of code = 1 <-> relatp = Some "friend" \/ relatp = Some "family") /\
  (step_of code = 4 <->
   relatp <> Some "friend" /\ relatp <> Some "family").
Proof.
  destruct relatp as [ s | ]; cbn [contact_added_relatp_type].
  - destruct (String.eqb_spec s "friend") as [ -> | Hfr ];
      [ | destruct (String.eqb_spec s "family") as [ -> | Hfam ] ];
      cbv zeta; unfold step_of; simpl;
      intuition (try congruence; try discriminate).
  - cbv zeta. unfold step_of. simpl.
    intuition (try congruence; try discriminate).
Qed.

(** X11: for any creation day, the committed events are at least the
    passes that cover twelve months and at most one pass more: with [k]
    methods and [q] months to a pass, between [k] times the quotient of
    [12 + q - 1] by [q] and [k] times one more than the quotient of [12] by
    [q]; the two agree unless [q] divides twelve, where a day cut by a short
    month can bring one pass more. *)
Theorem X11_event_count_for_any_day (uid rid : Z) (r : Relationship)
    (desired_list : list string) (fuel : nat) (evs : list Event) :
  valid_datetime (created_date r) ->
  method_specification_success uid rid r fuel desired_list = Done evs ->
  let k := Z.of_nat (length desired_list) in
  let q := k * step_of (relatp_type r) in
  k * ((12 + q - 1) / q) <= Z.of_nat (length evs) <= k * (12 / q + 1).
Proof.
  intros Hv Hr k q.
  destruct (run_done_passes uid rid r _ _ _ Hv Hr) as (Hne & passes & Hm).
  destruct (run_spec uid rid r _ _ _ Hv Hr)
    as (start_date & yr & last & n & H1 & H2 & Hs & Hl & _ & _ & Hup).
  destruct (first_date_and_bound r _ _ Hv H1 H2)
    as (Hv1 & Hv2 & Hi1 & Hi2 & _).
  rewrite valid_datetime_spec in Hv1, Hv2.
  destruct Hv1 as (_ & Hmo1 & _). destruct Hv2 as (_ & Hmo2 & _).
  pose proof (step_range r) as Hstep.
  destruct (schedule_month_index _ _ _ _ Hs Hmo1) as [Hil Hmol].
  assert (Hge : month_index yr <= month_index last).
  { destruct (Z.lt_ge_cases (month_index last) (month_index yr))
      as [Hlt | Hge]; [ | lia ].
    pose proof (month_index_lt _ _ Hmol Hmo2 Hlt) as Hc.
    unfold dt_lt in Hc. congruence. }
  assert (Hn : 1 <= k)
    by (subst k; destruct desired_list; [ congruence | simpl length; lia ]).
  assert (Hq : 0 < q) by (subst q; nia).
  assert (Hlen : Z.of_nat (length evs) = Z.of_nat (S passes) * k).
  { subst k. rewrite <- (length_map rcmdn), Hm, length_concat_repeat. lia. }
  set (P := Z.of_nat (S passes)) in *.
  assert (Hlow : 12 <= q * P) by (subst q; nia).
  assert (Hhigh : q * (P - 1) <= 12) by (subst q; nia).
  assert (H1' : (12 + q - 1) / q <= P).
  { apply Z.lt_succ_r. apply Z.div_lt_upper_bound; lia. }
  assert (H2' : P - 1 <= 12 / q)
    by (apply Z.div_le_lower_bound; lia).
  rewrite Hlen. split; nia.
Qed.

Lemma X11_event_count_for_any_day_witness :
  valid_datetime (date 2023 1 31) /\
  generate 14 "fr" (date 2023 1 31) ["call"] = Done jan31_events /\
  let k := Z.of_nat (length ["call"]) in
  let q := k * step_of "fr" in
  k * ((12 + q - 1) / q) <= Z.of_nat (length jan31_events)
    <= k * (12 / q + 1).
Proof.
  assert (Hv : valid_datetime (date 2023 1 31)) by reflexivity.
  assert (Hr : generate 14 "fr" (date 2023 1 31) ["call"] = Done jan31_events)
    by (vm_compute; reflexivity).
  refine (conj Hv (conj Hr _)).
  exact (X11_event_count_for_any_day 1 7 (contact "fr" (date 2023 1 31))
           ["call"] 14 jan31_events Hv Hr).
Defined.

(** X12: for a valid creation date and a list with a method in it, the run
    ends within fourteen tests of the loop condition, by the commit or by
    the error of a date past the calendar, with the same outcome for every
    fuel from fourteen on; every pass over the list leaves the date strictly
    later; and the events committed are at most twelve more than the methods
    of the list (at most three more when the step is four months). *)
Theorem X12_run_ends_for_a_list_with_a_method (uid rid : Z) (r : Relationship)
    (desired_list : list string) :
  valid_datetime (created_date r) ->
  desired_list <> [] ->
  exists res,
    res <> OutOfFuel /\
    (forall extra,
        method_specification_success uid rid r (14 + extra) desired_list
        = res) /\
    (forall session start_date session' start_date',
        1 <= month start_date <= 12 ->
        for_desired_list uid rid r desired_list session start_date
        = Some (session', start_date') ->
        dt_lt start_date start_date') /\
    (length (committed res) <= length desired_list + 12)%nat /\
    step_of (relatp_type r) * Z.of_nat (length (committed res))
      <= step_of (relatp_type r) * Z.of_nat (length desired_list) + 12.
Proof.
  intros Hv Hne.
  destruct (run_outcome uid rid r desired_list Hv Hne) as (res & Hres & Hfuel).
  pose proof (step_range r) as Hstep.
  exists res. split; [ exact Hres | ]. split; [ exact Hfuel | ]. split.
  - intros session start_date session' start_date' Hm Hf.
    destruct (for_desired_list_spec _ _ _ _ _ _ _ _ Hf)
      as (evs & _ & Hs & Hl & _).
    destruct (schedule_month_index _ _ _ _ Hs Hm) as [Hi Hm'].
    assert (Hlen : (0 < length evs)%nat).
    { rewrite <- (length_map rcmdn), Hl.
      destruct desired_list; [ congruence | simpl; lia ]. }
    apply month_index_lt; try assumption. nia.
  - assert (Hb : step_of (relatp_type r) * Z.of_nat (length (committed res))
                 <= step_of (relatp_type r) * Z.of_nat (length desired_list)
                    + 12).
    { destruct res as [ evs | | ]; simpl committed; simpl length; try nia.
      specialize (Hfuel O).
      destruct (run_spec uid rid r _ _ _ Hv Hfuel)
        as (_ & _ & _ & _ & _ & _ & _ & _ & _ & _ & Hb).
      exact Hb. }
    split; [ nia | exact Hb ].
Qed.

Lemma X12_run_ends_for_a_list_with_a_method_witness :
  valid_datetime (date 2023 7 31) /\
  ["call"] <> [] /\
  exists res,
    res <> OutOfFuel /\
    (forall extra,
        generate (14 + extra) "fr" (date 2023 7 31) ["call"] = res) /\
    (forall session start_date session' start_date',
        1 <= month start_date <= 12 ->
        for_desired_list 1 7 (contact "fr" (date 2023 7 31)) ["call"]
          session start_date = Some (session', start_date') ->
        dt_lt start_date start_date') /\
    (length (committed res) <= length ["call"] + 12)%nat /\
    step_of "fr" * Z.of_nat (length (committed res))
      <= step_of "fr" * Z.of_nat (length ["call"]) + 12.
Proof.
  assert (Hv : valid_datetime (date 2023 7 31)) by reflexivity.
  assert (Hne : ["call"] <> []) by discriminate.
  refine (conj Hv (conj Hne _)).
  exact (X12_run_ends_for_a_list_with_a_method 1 7
           (contact "fr" (date 2023 7 31)) ["call"] Hv Hne).
Defined.
